(** * LandProject: the amortization engine of [src/lib/calculations.ts]

    The engine is a handful of pure TypeScript functions over the JavaScript
    [number] type.  They are embedded here once, against an interface
    [Number] that lists exactly the arithmetic the source uses, and the
    interface is given two implementations:

    - [IEEE.binary64]: IEEE 754 binary64 through Rocq's primitive floats,
      the arithmetic a JavaScript engine runs.  [Math.max] and [Math.round]
      follow ECMA-262; [Math.pow], which ECMA-262 leaves
      implementation-approximated, is a parameter of the instance.
    - [Exact.rational]: exact arithmetic on [Q], the arithmetic in which
      amortization is reasoned about on paper; it has no rounding error, no
      overflow and no NaN.

    Statements that only depend on the control flow are proved for every
    implementation of the interface.  Signs and NaN are followed through
    binary64 for every input, from the specification of each operation.
    Concrete runs are evaluated in binary64.  Order properties of whole
    schedules are proved in exact arithmetic only, which is not what the
    program runs: in binary64 they are evaluated on concrete runs, and they
    fail on others.

    Iteration counts ([months], [paymentsMade]) are integer-valued numbers in
    every call site; they are carried as [Z] and injected with [of_Z] where
    the source uses them in arithmetic. *)

From Stdlib Require Import ZArith QArith Qround Qpower Lqa List Bool String Lia.
From Stdlib Require Import Floats.
Import ListNotations.

Set Warnings "-inexact-float".

(** ** Calendar dates

    [due_date] is computed by date-fns' [addMonths]: the month is advanced
    and the day of month is clamped to the length of the target month.  Only
    the calendar date is kept (no time of day, no zone). *)

Module Calendar.

Record Date : Type := mkDate { year : Z; month : Z; day : Z }.

Definition is_leap (y : Z) : bool :=
  ((y mod 4 =? 0) && negb (y mod 100 =? 0) || (y mod 400 =? 0))%Z.

Definition days_in_month (y m : Z) : Z :=
  if (m =? 2)%Z then (if is_leap y then 29 else 28)%Z
  else if ((m =? 4) || (m =? 6) || (m =? 9) || (m =? 11))%Z then 30%Z
  else 31%Z.

Definition addMonths (d : Date) (amount : Z) : Date :=
  let idx := (year d * 12 + (month d - 1) + amount)%Z in
  let y := (idx / 12)%Z in
  let m := (idx mod 12 + 1)%Z in
  mkDate y m (Z.min (day d) (days_in_month y m)).

End Calendar.

Import Calendar.

(** ** The arithmetic interface

    One field per operator or [Math] function that occurs in
    [calculations.ts]: numeric literals, [+ - * /], [<=], [===],
    [Math.max], [Math.round] and [Math.pow]. *)

Class Number : Type := {
  num : Type;
  of_Z : Z -> num;
  nadd : num -> num -> num;
  nsub : num -> num -> num;
  nmul : num -> num -> num;
  ndiv : num -> num -> num;
  nleb : num -> num -> bool;
  neqb : num -> num -> bool;
  Math_max : num -> num -> num;
  Math_round : num -> num;
  Math_pow : num -> num -> num
}.

Declare Scope num_scope.
Delimit Scope num_scope with num.
Bind Scope num_scope with num.
Notation "x + y" := (nadd x y) : num_scope.
Notation "x - y" := (nsub x y) : num_scope.
Notation "x * y" := (nmul x y) : num_scope.
Notation "x / y" := (ndiv x y) : num_scope.
Notation "x <=? y" := (nleb x y) : num_scope.
Notation "x =? y" := (neqb x y) : num_scope.
Notation "$ z" := (of_Z z%Z) (at level 1, format "$ z") : num_scope.

(** ** Records of [src/types/index.ts]

    The records are parametric in the type of their [number] fields. *)

Record AmortizationEntry (num : Type) : Type := {
  payment_number : Z;
  due_date : Date;
  amount_due : num;
  principal : num;
  interest : num;
  balance : num
}.

Arguments Build_AmortizationEntry {num}.
Arguments payment_number {num}.
Arguments due_date {num}.
Arguments amount_due {num}.
Arguments principal {num}.
Arguments interest {num}.
Arguments balance {num}.

Record SaleFormData (num : Type) : Type := {
  property_id : string;
  buyer_id : string;
  sale_date : string;
  sale_price : num;
  down_payment : num;
  interest_rate : num;
  term_months : num
}.

Arguments Build_SaleFormData {num}.
Arguments property_id {num}.
Arguments buyer_id {num}.
Arguments sale_date {num}.
Arguments sale_price {num}.
Arguments down_payment {num}.
Arguments interest_rate {num}.
Arguments term_months {num}.

Record SaleDetails (num : Type) : Type := {
  finance_amount : num;
  monthly_payment : num;
  total_payment : num
}.

Arguments Build_SaleDetails {num}.
Arguments finance_amount {num}.
Arguments monthly_payment {num}.
Arguments total_payment {num}.

(** The rows handed to [calculatePayoffAmount] are [Payment] rows; the
    function's parameter type only asks for [status] and [principal], the
    other fields ride along.  [paid_amount] is kept to state that it is
    not read. *)
Module Payment.
Record t (num : Type) : Type := {
  status : string;
  principal : num;
  paid_amount : option num
}.
Arguments Build_t {num}.
Arguments status {num}.
Arguments principal {num}.
Arguments paid_amount {num}.
End Payment.

(** ** The functions of [src/lib/calculations.ts] *)

Section Engine.

Context `{Number}.
Open Scope num_scope.

(** The source writes [Math.round(x * 100) / 100] inline at every
    rounding site; the spec calls it [round2]. *)
Definition round2 (x : num) : num := Math_round (x * $100) / $100.

Definition calculateMonthlyPayment (principal annualRate months : num) : num :=
  if (principal <=? $0) || (months <=? $0) then $0
  else if annualRate =? $0 then principal / months
  else
    let monthlyRate := annualRate / $100 / $12 in
    let numerator := monthlyRate * Math_pow ($1 + monthlyRate) months in
    let denominator := Math_pow ($1 + monthlyRate) months - $1 in
    principal * (numerator / denominator).

Definition calculateTotalPayment (monthlyPayment months downPayment : num) : num :=
  monthlyPayment * months + downPayment.

Definition calculateFinanceAmount (salePrice downPayment : num) : num :=
  Math_max $0 (salePrice - downPayment).

(** One turn of the [for] loop of [generateAmortizationSchedule]: the
    entry pushed at counter [i] and the balance carried to the next turn. *)
Definition schedule_step (annualRate monthlyPayment monthlyRate : num)
    (months : Z) (startDate : Date) (i : Z) (balance : num)
    : AmortizationEntry num * num :=
  let interest := if annualRate =? $0 then $0 else balance * monthlyRate in
  let principal := monthlyPayment - interest in
  let balance := Math_max $0 (balance - principal) in
  let adjustedPrincipal :=
    if (i =? months)%Z then balance + principal else principal in
  let adjustedPayment :=
    if (i =? months)%Z then adjustedPrincipal + interest else monthlyPayment in
  ({| payment_number := i;
      due_date := addMonths startDate i;
      amount_due := round2 adjustedPayment;
      principal := round2 adjustedPrincipal;
      interest := round2 interest;
      balance := if (i =? months)%Z then $0 else round2 balance |},
   balance).

(** [for (let i = 1; i <= months; i++)]: [fuel] is the number of turns
    left, [i] the counter, [balance] the running balance. *)
Fixpoint schedule_loop (annualRate monthlyPayment monthlyRate : num)
    (months : Z) (startDate : Date) (fuel : nat) (i : Z) (balance : num)
    : list (AmortizationEntry num) :=
  match fuel with
  | O => []
  | S fuel' =>
      let (entry, balance') :=
        schedule_step annualRate monthlyPayment monthlyRate months startDate i balance in
      entry :: schedule_loop annualRate monthlyPayment monthlyRate months startDate
                 fuel' (i + 1)%Z balance'
  end.

Definition generateAmortizationSchedule (financeAmount annualRate : num)
    (months : Z) (startDate : Date) : list (AmortizationEntry num) :=
  let monthlyPayment := calculateMonthlyPayment financeAmount annualRate $months in
  let monthlyRate := annualRate / $100 / $12 in
  schedule_loop annualRate monthlyPayment monthlyRate months startDate
    (Z.to_nat months) 1%Z financeAmount.

Definition calculateSaleDetails (formData : SaleFormData num) : SaleDetails num :=
  let financeAmount :=
    calculateFinanceAmount (sale_price formData) (down_payment formData) in
  let monthlyPayment :=
    calculateMonthlyPayment financeAmount (interest_rate formData) (term_months formData) in
  let totalPayment :=
    calculateTotalPayment monthlyPayment (term_months formData) (down_payment formData) in
  {| finance_amount := round2 financeAmount;
     monthly_payment := round2 monthlyPayment;
     total_payment := round2 totalPayment |}.

(** [for (let i = 0; i < paymentsMade; i++)] of
    [calculateRemainingBalance]; the body does not read [i]. *)
Fixpoint remaining_loop (annualRate monthlyPayment monthlyRate : num)
    (fuel : nat) (balance : num) : num :=
  match fuel with
  | O => balance
  | S fuel' =>
      let interest := if annualRate =? $0 then $0 else balance * monthlyRate in
      let principal := monthlyPayment - interest in
      remaining_loop annualRate monthlyPayment monthlyRate fuel' (balance - principal)
  end.

Definition calculateRemainingBalance (originalPrincipal annualRate : num)
    (totalMonths paymentsMade : Z) : num :=
  if (paymentsMade >=? totalMonths)%Z then $0
  else
    let monthlyPayment :=
      calculateMonthlyPayment originalPrincipal annualRate $totalMonths in
    let monthlyRate := annualRate / $100 / $12 in
    let balance :=
      remaining_loop annualRate monthlyPayment monthlyRate
        (Z.to_nat paymentsMade) originalPrincipal in
    Math_max $0 (round2 balance).

Definition calculateTotalInterest (totalPayment salePrice : num) : num :=
  Math_max $0 (totalPayment - salePrice).

(** [payments.reduce((sum, p) => sum + p.principal, 0)] *)
Definition sum_principal (payments : list (Payment.t num)) : num :=
  fold_left (fun sum p => sum + Payment.principal p) payments $0.

Definition calculatePayoffAmount (payments : list (Payment.t num)) : num :=
  let paidPrincipal :=
    sum_principal
      (filter (fun p => String.eqb (Payment.status p) "paid") payments) in
  let totalPrincipal := sum_principal payments in
  round2 (totalPrincipal - paidPrincipal).

(** The same reduction over the entries of a schedule, as the sale page
    stores them: the total the spec's sum-of-principal property reads. *)
Definition schedule_principal (schedule : list (AmortizationEntry num)) : num :=
  fold_left (fun sum e => sum + principal e) schedule $0.

End Engine.

(** ** IEEE 754 binary64: the numbers of a JavaScript engine *)

Module IEEE.

Definition of_Z (z : Z) : float := SF2Prim (binary_normalize prec emax z 0 false).

(** [Math.max(x, y)] of ECMA-262: NaN if either argument is NaN,
    [+0] is larger than [-0], otherwise the larger argument. *)
Definition Math_max (x y : float) : float :=
  if PrimFloat.is_nan x || PrimFloat.is_nan y then nan
  else if PrimFloat.is_zero x && PrimFloat.is_zero y
       then (if PrimFloat.get_sign x then y else x)
       else if PrimFloat.ltb x y then y else x.

(** [Math.round(x)] of ECMA-262: the integral number closest to
    [x], ties toward +infinity; NaN, the infinities, the zeros and
    integral values are returned unchanged; a result of zero keeps the
    sign of [x].  For a finite [x = (-1)^s * m * 2^e] with [e < 0] the
    integer is [floor (x + 1/2)], computed exactly on [Z]. *)
Definition Math_round (x : float) : float :=
  match Prim2SF x with
  | S754_finite s m e =>
      if (0 <=? e)%Z then x
      else
        let sm := if s then Z.neg m else Z.pos m in
        let q := Z.shiftr (2 * sm + Z.shiftl 1 (- e)) (1 - e) in
        if (q =? 0)%Z then (if s then neg_zero else zero) else of_Z q
  | _ => x
  end.

(** The integer a float denotes, when it denotes one. *)
Definition to_Z (y : float) : option Z :=
  match Prim2SF y with
  | S754_zero _ => Some 0%Z
  | S754_finite s m e =>
      let sm := if s then Z.neg m else Z.pos m in
      if (0 <=? e)%Z then Some (Z.shiftl sm e)
      else if (Z.land (Z.pos m) (Z.ones (- e)) =? 0)%Z then Some (Z.shiftr sm (- e))
      else None
  | _ => None
  end.

(** A reference [Math.pow] for a non-negative integral exponent: for a
    finite base the exact power [(m * 2^e)^n = m^n * 2^(e*n)], rounded once
    to nearest; engines return this value or a neighbour of it.  The engine
    only calls [Math.pow] after the guard [months <= 0] has been passed;
    negative and fractional exponents are not modelled (NaN).

    ECMA-262 leaves the precision of [Math.pow] to the implementation, so
    for an integral exponent this is one admissible result, not the one of
    a given engine.
    What is stated of the program quantifies over [pow]; this reference is
    only run on closed inputs with an integral exponent, and an overflow to
    [infinity] is stated as a hypothesis on [pow] besides. *)
Definition Math_pow_exact (x y : float) : float :=
  match to_Z y with
  | Some n =>
      if (n =? 0)%Z then one
      else if (n <? 0)%Z then nan
      else match Prim2SF x with
           | S754_finite s m e =>
               let sm := if s then Z.neg m else Z.pos m in
               SF2Prim (binary_normalize prec emax (sm ^ n) (e * n) false)
           | S754_zero s => if s && Z.odd n then neg_zero else zero
           | S754_infinity s => if s && Z.odd n then neg_infinity else infinity
           | S754_nan => nan
           end
  | None => nan
  end.

(** The binary64 numbers with a given [Math.pow]. *)
Definition binary64 (pow : float -> float -> float) : Number :=
  Build_Number float of_Z
    PrimFloat.add PrimFloat.sub PrimFloat.mul PrimFloat.div
    PrimFloat.leb PrimFloat.eqb
    Math_max Math_round pow.

(** The instance used to evaluate the engine on concrete inputs. *)
Definition js : Number := binary64 Math_pow_exact.

(** [xs[i] <= xs[i-1]] for every [i > 0], with the [<=] of the engine. *)
Fixpoint nonincreasing (xs : list float) : bool :=
  match xs with
  | x :: (y :: _) as rest => PrimFloat.leb y x && nonincreasing rest
  | _ => true
  end.

End IEEE.

(** ** Exact rational arithmetic

    [Math.round] is [floor (x + 1/2)].  Division is that of [Q], which is
    total ([x / 0 = 0]); the engine divides by [100], by [12], by [months]
    behind the guard [months <= 0], and by [(1 + r)^months - 1], which is
    positive as soon as the rate is.

    This is not the arithmetic the program runs: there is no rounding, no
    overflow and no NaN here, and on the same inputs the program can store
    other cents.  A statement at this instance is about the formulas the
    code writes down; what is stated of the program itself is stated for
    binary64 or for every arithmetic. *)

Module Exact.

Definition Math_max (x y : Q) : Q := if Qle_bool x y then y else x.

Definition Math_round (x : Q) : Q := inject_Z (Qfloor (x + (1 # 2))%Q).

(** Exponents are iteration counts, hence integers. *)
Definition Math_pow (x y : Q) : Q := Qpower x (Qfloor y).

Definition rational : Number :=
  Build_Number Q inject_Z Qplus Qminus Qmult Qdiv Qle_bool Qeq_bool
    Math_max Math_round Math_pow.

End Exact.

(** ** Views of a schedule used in the statements *)

Section Views.

Context `{Number}.
Open Scope num_scope.

(** The four monetary fields of an entry. *)
Definition money (e : AmortizationEntry num) : num * num * num * num :=
  (amount_due e, principal e, interest e, balance e).

(** The unrounded running balance after [k] more turns of the loop of
    [generateAmortizationSchedule], started at counter [i] with
    [balance]: the value of the variable [balance] when turn [i + k]
    starts. *)
Fixpoint carried_balance (annualRate monthlyPayment monthlyRate : num)
    (months : Z) (startDate : Date) (i : Z) (k : nat) (balance : num) : num :=
  match k with
  | O => balance
  | S k' =>
      carried_balance annualRate monthlyPayment monthlyRate months startDate
        (i + 1)%Z k'
        (snd (schedule_step annualRate monthlyPayment monthlyRate months startDate
                i balance))
  end.


End Views.

(** NaN, or a binary64 number whose sign bit is [s]: what is known of the
    result of a product, a quotient, a rounding or a [Math.max] without
    looking at its digits. *)
Definition sign_or_nan (s : bool) (f : spec_float) : Prop :=
  match f with
  | S754_nan => True
  | S754_zero s' | S754_infinity s' | S754_finite s' _ _ => s' = s
  end.

(** ** The rest of [src/lib/calculations.ts] and its callers *)

(** The object [handleSubmit] of [src/pages/admin/Sales.tsx] builds for each
    entry of the schedule before it calls [createPayments]. *)
Module NewPayment.
Record t (num : Type) : Type := {
  sale_id : string;
  payment_number : Z;
  due_date : string;
  amount_due : num;
  principal : num;
  interest : num;
  paid_amount : option num;
  paid_date : option string;
  stripe_payment_id : option string;
  stripe_checkout_session_id : option string;
  status : string
}.
Arguments Build_t {num}.
Arguments sale_id {num}.
Arguments payment_number {num}.
Arguments due_date {num}.
Arguments amount_due {num}.
Arguments principal {num}.
Arguments interest {num}.
Arguments paid_amount {num}.
Arguments paid_date {num}.
Arguments stripe_payment_id {num}.
Arguments stripe_checkout_session_id {num}.
Arguments status {num}.
End NewPayment.

(** A sale as the buyer pages read it: its [status] and its joined
    [payments], which may be missing. *)
Module Sale.
Record t (num : Type) : Type := {
  status : string;
  down_payment : num;
  payments : option (list (Payment.t num))
}.
Arguments Build_t {num}.
Arguments status {num}.
Arguments down_payment {num}.
Arguments payments {num}.
End Sale.

Section Callers.

Context `{Number}.
Open Scope num_scope.

(** [calculateDiscountPrice] of [calculations.ts]. *)
Definition calculateDiscountPrice (listPrice discountPercent : num) : num :=
  listPrice * ($1 - discountPercent / $100).

(** [schedule.map((entry) => ({ ... }))] in [handleSubmit]; [format] is
    date-fns' [format(_, 'yyyy-MM-dd')]. *)
Definition newPayments (format : Date -> string) (sale_id : string)
    (schedule : list (AmortizationEntry num)) : list (NewPayment.t num) :=
  map (fun entry =>
         {| NewPayment.sale_id := sale_id;
            NewPayment.payment_number := payment_number entry;
            NewPayment.due_date := format (due_date entry);
            NewPayment.amount_due := amount_due entry;
            NewPayment.principal := principal entry;
            NewPayment.interest := interest entry;
            NewPayment.paid_amount := None;
            NewPayment.paid_date := None;
            NewPayment.stripe_payment_id := None;
            NewPayment.stripe_checkout_session_id := None;
            NewPayment.status := "pending" |})
      schedule.

(** The fields of a stored payment that [calculatePayoffAmount] and the
    totals of the pages read. *)
Definition stored (p : NewPayment.t num) : Payment.t num :=
  {| Payment.status := NewPayment.status p;
     Payment.principal := NewPayment.principal p;
     Payment.paid_amount := NewPayment.paid_amount p |}.

(** [x || 0] for a nullable number [x]: [null], [0], [-0] and NaN give
    [0]. *)
Definition or_zero (x : option num) : num :=
  match x with
  | Some v => if (v =? $0) || negb (v =? v) then $0 else v
  | None => $0
  end.

(** [sale.payments || []]. *)
Definition payments_or_empty (s : Sale.t num) : list (Payment.t num) :=
  match Sale.payments s with
  | Some ps => ps
  | None => []
  end.

(** [totalPaid] of [src/pages/admin/SaleDetail.tsx]. *)
Definition totalPaid (payments : list (Payment.t num)) : num :=
  let paidPayments :=
    filter (fun p => String.eqb (Payment.status p) "paid") payments in
  fold_left (fun sum p => sum + or_zero (Payment.paid_amount p)) paidPayments $0.

(** [totalPaid] of [src/pages/buyer/PaymentSchedule.tsx], which adds the
    down payment of the sale. *)
Definition totalPaidWithDownPayment (sale : Sale.t num) : num :=
  let payments := payments_or_empty sale in
  let paidPayments :=
    filter (fun p => String.eqb (Payment.status p) "paid") payments in
  fold_left (fun sum p => sum + or_zero (Payment.paid_amount p)) paidPayments $0
  + Sale.down_payment sale.

(** [totalOwed] of [src/pages/buyer/BuyerDashboard.tsx]. *)
Definition totalOwed (sales : list (Sale.t num)) : num :=
  let activeSales :=
    filter (fun s => String.eqb (Sale.status s) "active") sales in
  fold_left
    (fun sum s =>
       let payoff := calculatePayoffAmount (payments_or_empty s) in
       sum + payoff)
    activeSales $0.

(** [nextDue] of [src/pages/buyer/BuyerDashboard.tsx]. *)
Definition nextDue (payments : list (Payment.t num)) : option (Payment.t num) :=
  find (fun p => String.eqb (Payment.status p) "pending"
                 || String.eqb (Payment.status p) "late")
    payments.

End Callers.

(** * Properties that hold for every arithmetic *)

Section EngineFacts.

Context `{Number}.
Open Scope num_scope.

(** The loop, one turn unrolled. *)
Lemma schedule_loop_S annualRate monthlyPayment monthlyRate months startDate fuel i balance :
  schedule_loop annualRate monthlyPayment monthlyRate months startDate (S fuel) i balance
  = fst (schedule_step annualRate monthlyPayment monthlyRate months startDate i balance)
    :: schedule_loop annualRate monthlyPayment monthlyRate months startDate fuel (i + 1)
         (snd (schedule_step annualRate monthlyPayment monthlyRate months startDate
                 i balance)).
Proof. reflexivity. Qed.

Lemma schedule_loop_length annualRate monthlyPayment monthlyRate months startDate fuel :
  forall i balance,
    List.length (schedule_loop annualRate monthlyPayment monthlyRate months startDate
                   fuel i balance) = fuel.
Proof.
  induction fuel as [|fuel IH]; intros i b; [reflexivity|].
  rewrite schedule_loop_S. cbn [List.length]. now rewrite IH.
Qed.

Lemma generateAmortizationSchedule_length financeAmount annualRate months startDate :
  List.length (generateAmortizationSchedule financeAmount annualRate months startDate)
  = Z.to_nat months.
Proof. unfold generateAmortizationSchedule. apply schedule_loop_length. Qed.

Lemma generateAmortizationSchedule_nil_iff financeAmount annualRate months startDate :
  generateAmortizationSchedule financeAmount annualRate months startDate = []
  <-> (months <= 0)%Z.
Proof.
  pose proof (generateAmortizationSchedule_length
                financeAmount annualRate months startDate) as Hlen.
  split.
  - intros E. rewrite E in Hlen. simpl in Hlen. lia.
  - intros Hm. apply length_zero_iff_nil. rewrite Hlen. lia.
Qed.

(** Entry [k] (counting from 0) is the one pushed by turn [i + k], run on
    the balance carried that far. *)
Lemma schedule_loop_nth annualRate monthlyPayment monthlyRate months startDate fuel :
  forall i balance k,
    (k < fuel)%nat ->
    nth_error (schedule_loop annualRate monthlyPayment monthlyRate months startDate
                 fuel i balance) k
    = Some (fst (schedule_step annualRate monthlyPayment monthlyRate months startDate
                   (i + Z.of_nat k)
                   (carried_balance annualRate monthlyPayment monthlyRate months
                      startDate i k balance))).
Proof.
  induction fuel as [|fuel IH]; intros i b k Hk; [lia|].
  rewrite schedule_loop_S.
  destruct k as [|k]; cbn [nth_error carried_balance].
  - now rewrite Z.add_0_r.
  - rewrite IH by lia. do 3 f_equal. lia.
Qed.

Lemma generateAmortizationSchedule_nth financeAmount annualRate months startDate k e :
  nth_error (generateAmortizationSchedule financeAmount annualRate months startDate) k
  = Some e ->
  let monthlyPayment := calculateMonthlyPayment financeAmount annualRate $months in
  let monthlyRate := annualRate / $100 / $12 in
  (Z.of_nat k < months)%Z /\
  e = fst (schedule_step annualRate monthlyPayment monthlyRate months startDate
             (Z.of_nat k + 1)
             (carried_balance annualRate monthlyPayment monthlyRate months startDate
                1 k financeAmount)).
Proof.
  intros Hk M r.
  assert (Hlt : (k < Z.to_nat months)%nat).
  { rewrite <- (generateAmortizationSchedule_length financeAmount annualRate months startDate).
    apply nth_error_Some. now rewrite Hk. }
  split; [lia|].
  unfold generateAmortizationSchedule in Hk.
  rewrite schedule_loop_nth in Hk by exact Hlt.
  apply (f_equal (fun o => match o with Some x => x | None => e end)) in Hk.
  cbv beta iota in Hk. rewrite <- Hk. fold M r.
  now replace (1 + Z.of_nat k)%Z with (Z.of_nat k + 1)%Z by lia.
Qed.

(** The last turn of the loop stores the literal [0] as balance. *)
Lemma last_entry_balance financeAmount annualRate months startDate :
  (1 <= months)%Z ->
  exists e,
    nth_error (generateAmortizationSchedule financeAmount annualRate months startDate)
      (Z.to_nat months - 1) = Some e
    /\ balance e = $0.
Proof.
  intros Hm.
  destruct (nth_error
              (generateAmortizationSchedule financeAmount annualRate months startDate)
              (Z.to_nat months - 1)) as [e|] eqn:He.
  - exists e. split; [reflexivity|].
    apply generateAmortizationSchedule_nth in He. destruct He as [_ ->].
    unfold schedule_step. cbn [fst balance].
    replace (Z.of_nat (Z.to_nat months - 1) + 1)%Z with months by lia.
    now rewrite Z.eqb_refl.
  - apply nth_error_None in He.
    rewrite generateAmortizationSchedule_length in He. lia.
Qed.

(** [calculateMonthlyPayment], branch by branch. *)
Lemma calculateMonthlyPayment_guard principal annualRate months :
  (principal <=? $0) = true \/ (months <=? $0) = true ->
  calculateMonthlyPayment principal annualRate months = $0.
Proof.
  unfold calculateMonthlyPayment. intros [-> | ->]; [reflexivity|].
  now rewrite orb_true_r.
Qed.

Lemma calculateMonthlyPayment_zero_rate principal annualRate months :
  (principal <=? $0) = false -> (months <=? $0) = false ->
  (annualRate =? $0) = true ->
  calculateMonthlyPayment principal annualRate months = principal / months.
Proof. unfold calculateMonthlyPayment. now intros -> -> ->. Qed.

Lemma calculateMonthlyPayment_annuity principal annualRate months :
  (principal <=? $0) = false -> (months <=? $0) = false ->
  (annualRate =? $0) = false ->
  let r := annualRate / $100 / $12 in
  calculateMonthlyPayment principal annualRate months
  = principal * (r * Math_pow ($1 + r) months / (Math_pow ($1 + r) months - $1)).
Proof. unfold calculateMonthlyPayment. now intros -> -> ->. Qed.




End EngineFacts.

(** * Facts about the two arithmetics *)

Module IEEEFacts.

Lemma ltb_leb (x y : float) :
  PrimFloat.ltb x y = true -> PrimFloat.leb x y = true.
Proof.
  rewrite ltb_spec, leb_spec. unfold SFltb, SFleb.
  now destruct (SFcompare (Prim2SF x) (Prim2SF y)) as [[ | | ]|].
Qed.

(** [Math.max(0, x)] is NaN exactly when [x] is, and otherwise not
    below zero. *)
Lemma Math_max_0_floor_binary64 (x : float) :
  PrimFloat.is_nan (IEEE.Math_max 0 x) = false ->
  PrimFloat.leb 0 (IEEE.Math_max 0 x) = true.
Proof.
  unfold IEEE.Math_max.
  change (PrimFloat.is_nan 0) with false.
  change (PrimFloat.is_zero 0) with true.
  change (PrimFloat.get_sign 0) with false.
  cbn [orb andb].
  destruct (PrimFloat.is_nan x).
  - intros Hnan. vm_compute in Hnan. discriminate.
  - intros _. destruct (PrimFloat.is_zero x); [reflexivity|].
    destruct (PrimFloat.ltb 0 x) eqn:Hlt; [now apply ltb_leb|reflexivity].
Qed.

(** *** Signs

    The sign of a result is read off the specification of the operation,
    whatever the rounding does. *)

Lemma binary_round_aux_sign (s : bool) (m e : Z) (l : location) :
  sign_or_nan s (binary_round_aux prec emax s m e l).
Proof.
  unfold binary_round_aux.
  destruct (shr_fexp prec emax m e l) as [mrs' e'].
  destruct (shr_fexp prec emax _ e' loc_Exact) as [mrs'' e''].
  destruct (shr_m mrs''); [reflexivity| |exact I].
  destruct (e'' <=? emax - prec)%Z; reflexivity.
Qed.

Lemma binary_round_sign (s : bool) (m : positive) (e : Z) :
  sign_or_nan s (binary_round prec emax s m e).
Proof.
  unfold binary_round. destruct (shl_align m e _) as [mz ez].
  apply binary_round_aux_sign.
Qed.

Lemma binary_normalize_sign (z e : Z) :
  (0 <= z)%Z -> sign_or_nan false (binary_normalize prec emax z e false).
Proof.
  intros Hz. destruct z as [|p|p]; cbn [binary_normalize];
    [reflexivity|apply binary_round_sign|lia].
Qed.

Lemma SFmul_sign (sx sy : bool) (x y : spec_float) :
  sign_or_nan sx x -> sign_or_nan sy y ->
  sign_or_nan (xorb sx sy) (SFmul prec emax x y).
Proof.
  destruct x as [s1|s1| |s1 m1 e1], y as [s2|s2| |s2 m2 e2];
    cbn [sign_or_nan SFmul]; intros; subst; try reflexivity; try exact I.
  apply binary_round_aux_sign.
Qed.

Lemma SFdiv_sign (sx sy : bool) (x y : spec_float) :
  sign_or_nan sx x -> sign_or_nan sy y ->
  sign_or_nan (xorb sx sy) (SFdiv prec emax x y).
Proof.
  destruct x as [s1|s1| |s1 m1 e1], y as [s2|s2| |s2 m2 e2];
    cbn [sign_or_nan SFdiv]; intros; subst; try reflexivity; try exact I.
  destruct (SFdiv_core_binary prec emax (Z.pos m1) e1 (Z.pos m2) e2) as [[mz ez] lz].
  apply binary_round_aux_sign.
Qed.

Lemma SFldexp_sign (s : bool) (x : spec_float) (e : Z) :
  sign_or_nan s x -> sign_or_nan s (SFldexp prec emax x e).
Proof.
  destruct x as [s1|s1| |s1 m1 e1]; cbn [sign_or_nan SFldexp]; intros; subst;
    try reflexivity; try exact I.
  apply binary_round_sign.
Qed.

Lemma mul_sign (sx sy : bool) (x y : float) :
  sign_or_nan sx (Prim2SF x) -> sign_or_nan sy (Prim2SF y) ->
  sign_or_nan (xorb sx sy) (Prim2SF (x * y)).
Proof. rewrite mul_spec. apply SFmul_sign. Qed.

Lemma div_sign (sx sy : bool) (x y : float) :
  sign_or_nan sx (Prim2SF x) -> sign_or_nan sy (Prim2SF y) ->
  sign_or_nan (xorb sx sy) (Prim2SF (x / y)).
Proof. rewrite div_spec. apply SFdiv_sign. Qed.

(** The float of a non-negative integer. *)
Lemma of_Z_sign (z : Z) :
  (0 <= z)%Z -> sign_or_nan false (Prim2SF (IEEE.of_Z z)).
Proof.
  intros Hz. unfold IEEE.of_Z.
  pose proof (binary_normalize_sign z 0 Hz) as Hshape.
  destruct (binary_normalize prec emax z 0 false) as [s|s| |s m e];
    cbn [sign_or_nan] in Hshape; subst; try reflexivity.
  cbn [SF2Prim]. unfold Z.ldexp.
  rewrite ldshiftexp_spec. apply SFldexp_sign.
  rewrite of_uint63_spec. apply binary_normalize_sign.
  apply Uint63.to_Z_bounded.
Qed.

Lemma Math_round_sign (x : float) :
  sign_or_nan false (Prim2SF x) -> sign_or_nan false (Prim2SF (IEEE.Math_round x)).
Proof.
  intros Hx. unfold IEEE.Math_round.
  destruct (Prim2SF x) as [s|s| |s m e] eqn:Ex; try (rewrite Ex; exact Hx).
  cbn [sign_or_nan] in Hx. subst s.
  destruct (0 <=? e)%Z; [rewrite Ex; reflexivity|].
  cbv zeta.
  destruct (Z.shiftr (2 * Z.pos m + Z.shiftl 1 (- e)) (1 - e) =? 0)%Z;
    [reflexivity|].
  apply of_Z_sign, Z.shiftr_nonneg.
  pose proof (Z.shiftl_nonneg 1 (- e)). lia.
Qed.

Lemma round2_sign (pow : float -> float -> float) (x : float) :
  sign_or_nan false (Prim2SF x) ->
  sign_or_nan false (Prim2SF (round2 (H := IEEE.binary64 pow) x)).
Proof.
  intros Hx. unfold round2.
  change (@of_Z (IEEE.binary64 pow)) with IEEE.of_Z.
  change (@ndiv (IEEE.binary64 pow)) with PrimFloat.div.
  change (@nmul (IEEE.binary64 pow)) with PrimFloat.mul.
  change (@Math_round (IEEE.binary64 pow)) with IEEE.Math_round.
  apply (div_sign false false); [|apply of_Z_sign; lia].
  apply Math_round_sign.
  apply (mul_sign false false); [exact Hx|apply of_Z_sign; lia].
Qed.

(** [Math.max(0, x)] is NaN, [+0] or a positive number. *)
Lemma Math_max_0_sign (x : float) :
  sign_or_nan false (Prim2SF (IEEE.Math_max 0 x)).
Proof.
  unfold IEEE.Math_max.
  change (PrimFloat.is_nan 0) with false.
  change (PrimFloat.is_zero 0) with true.
  change (PrimFloat.get_sign 0) with false.
  cbn [orb andb].
  destruct (PrimFloat.is_nan x); [exact I|].
  destruct (PrimFloat.is_zero x); [reflexivity|].
  destruct (PrimFloat.ltb 0 x) eqn:Hlt; [|reflexivity].
  rewrite ltb_spec in Hlt. change (Prim2SF 0) with (S754_zero false) in Hlt.
  destruct (Prim2SF x) as [s|[|]| |[|] m e]; try discriminate Hlt; reflexivity.
Qed.

(** A number whose sign bit is clear is [>= 0]. *)
Lemma sign_clear_leb (x : float) :
  sign_or_nan false (Prim2SF x) ->
  PrimFloat.is_nan x = false -> PrimFloat.leb 0 x = true.
Proof.
  intros Hx Hnan. unfold PrimFloat.is_nan in Hnan.
  rewrite eqb_spec in Hnan. rewrite leb_spec.
  change (Prim2SF 0) with (S754_zero false).
  destruct (Prim2SF x) as [s|s| |s m e]; cbn [sign_or_nan] in Hx; subst;
    try reflexivity.
  discriminate Hnan.
Qed.

(** The balance a turn stores is NaN or has its sign bit clear. *)
Lemma stored_balance_sign (pow : float -> float -> float)
    (annualRate monthlyPayment monthlyRate : float) (months : Z) (startDate : Date)
    (i : Z) (b : float) :
  sign_or_nan false
    (Prim2SF (balance (fst (schedule_step (H := IEEE.binary64 pow)
                              annualRate monthlyPayment monthlyRate months startDate
                              i b)))).
Proof.
  unfold schedule_step. cbn [fst balance].
  change (@of_Z (IEEE.binary64 pow) 0) with 0%float.
  destruct (i =? months)%Z; [reflexivity|].
  apply round2_sign.
  change (@Math_max (IEEE.binary64 pow)) with IEEE.Math_max.
  apply Math_max_0_sign.
Qed.

(** *** An overflowing [Math.pow]

    At [annualRate = 1200000] the monthly rate is [1000]; [1001^200] is
    above the largest binary64 number. *)

Lemma Math_pow_exact_overflow :
  IEEE.Math_pow_exact 1001%float 200%float = infinity.
Proof. vm_compute. reflexivity. Qed.

(** With [Math.pow(1001, 200) = Infinity] the monthly payment is
    [1000 * (Infinity / Infinity)], which is NaN. *)
Lemma overflowing_payment_is_NaN (pow : float -> float -> float) :
  pow 1001%float 200%float = infinity ->
  calculateMonthlyPayment (H := IEEE.binary64 pow)
    1000%float 1200000%float (of_Z (Number := IEEE.binary64 pow) 200) = nan.
Proof. intros Hpow. vm_compute. rewrite Hpow. vm_compute. reflexivity. Qed.

End IEEEFacts.

Module ExactFacts.

Lemma Math_max_0_floor_exact (x : Q) : (0 <= Exact.Math_max 0 x)%Q.
Proof.
  unfold Exact.Math_max. destruct (Qle_bool 0 x) eqn:Hle.
  - now apply Qle_bool_iff.
  - apply Qle_refl.
Qed.

Local Open Scope Q_scope.

Local Abbreviation round2Q := (round2 (H := Exact.rational)).

Lemma round2_unfold (x : Q) :
  round2Q x = inject_Z (Qfloor (x * inject_Z 100 + (1 # 2))) / inject_Z 100.
Proof. reflexivity. Qed.

Lemma round2_mono (x y : Q) : x <= y -> round2Q x <= round2Q y.
Proof.
  intros Hxy. rewrite !round2_unfold.
  apply Qmult_le_compat_r; [|discriminate].
  rewrite <- Zle_Qle. apply Qfloor_resp_le.
  change (inject_Z 100) with (100 # 1). lra.
Qed.

Lemma round2_nonneg (x : Q) : 0 <= x -> 0 <= round2Q x.
Proof.
  intros Hx. apply Qle_trans with (round2Q 0); [discriminate|].
  now apply round2_mono.
Qed.

Lemma round2_eq (x y : Q) : x == y -> round2Q x == round2Q y.
Proof.
  intros E. apply Qle_antisym; apply round2_mono; rewrite E; apply Qle_refl.
Qed.

(** With [annualRate = 0] every entry has zero interest and
    [principal == amount_due], whatever the other inputs are. *)
Lemma zero_rate_entries (financeAmount : Q) (months : Z) (startDate : Date) :
  Forall (fun e : AmortizationEntry (@num Exact.rational) =>
            interest e == 0 /\ principal e == amount_due e)
    (generateAmortizationSchedule (H := Exact.rational)
       financeAmount 0 months startDate).
Proof.
  apply Forall_forall. intros e Hin.
  apply In_nth_error in Hin. destruct Hin as [k Hk].
  apply generateAmortizationSchedule_nth in Hk. destruct Hk as [_ ->].
  unfold schedule_step. cbn [fst interest principal amount_due].
  change (neqb (Number := Exact.rational) 0 (of_Z (Number := Exact.rational) 0))
    with true.
  cbv iota. split; [reflexivity|].
  destruct (Z.of_nat k + 1 =? months)%Z; apply round2_eq;
    change (of_Z (Number := Exact.rational) 0) with 0;
    cbv [nadd nsub Exact.rational]; ring.
Qed.

(** The interest charged on a balance between [0] and [financeAmount]
    never exceeds the monthly payment. *)
Lemma interest_le_payment (financeAmount annualRate : Q) (months : Z) (b : Q) :
  0 < financeAmount -> 0 <= annualRate -> (1 <= months)%Z ->
  0 <= b <= financeAmount ->
  (if Qeq_bool annualRate (inject_Z 0) then inject_Z 0
   else b * (annualRate / inject_Z 100 / inject_Z 12))
  <= calculateMonthlyPayment (H := Exact.rational)
       financeAmount annualRate (inject_Z months).
Proof.
  intros HfA Hrate Hm [Hb0 HbfA].
  assert (Hmq : 0 < inject_Z months).
  { change 0 with (inject_Z 0). rewrite <- Zlt_Qlt. lia. }
  unfold calculateMonthlyPayment.
  change (@nleb Exact.rational) with Qle_bool.
  change (@neqb Exact.rational) with Qeq_bool.
  change (@of_Z Exact.rational) with inject_Z.
  destruct (Qle_bool financeAmount (inject_Z 0)) eqn:E1.
  { apply Qle_bool_iff in E1. change (inject_Z 0) with 0 in E1. lra. }
  destruct (Qle_bool (inject_Z months) (inject_Z 0)) eqn:E2.
  { apply Qle_bool_iff in E2. change (inject_Z 0) with 0 in E2. lra. }
  cbn [orb].
  destruct (Qeq_bool annualRate (inject_Z 0)) eqn:E3.
  - change (@ndiv Exact.rational) with Qdiv.
    apply Qle_shift_div_l; [exact Hmq|].
    change (inject_Z 0) with 0. lra.
  - apply Qeq_bool_neq in E3. change (inject_Z 0) with 0 in E3.
    cbv zeta.
    change (@ndiv Exact.rational) with Qdiv.
    change (@nmul Exact.rational) with Qmult.
    change (@nadd Exact.rational) with Qplus.
    change (@nsub Exact.rational) with Qminus.
    change (@Math_pow Exact.rational) with Exact.Math_pow.
    unfold Exact.Math_pow. rewrite Qfloor_Z.
    set (r := annualRate / inject_Z 100 / inject_Z 12).
    assert (Hr : 0 < r).
    { assert (Hpos : 0 < annualRate).
      { apply Qle_lteq in Hrate. destruct Hrate as [Hlt|Heq]; [exact Hlt|].
        exfalso. apply E3. symmetry. exact Heq. }
      unfold r. change (inject_Z 100) with (100 # 1).
      change (inject_Z 12) with (12 # 1).
      apply Qlt_shift_div_l; [reflexivity|].
      apply Qlt_shift_div_l; [reflexivity|]. lra. }
    set (pw := (inject_Z 1 + r) ^ months).
    assert (Hpw : 1 < pw).
    { unfold pw. apply Qpower_1_lt; [|lia]. change (inject_Z 1) with 1. lra. }
    apply Qle_trans with (financeAmount * r).
    + apply Qmult_le_compat_r; [exact HbfA|lra].
    + rewrite !(Qmult_comm financeAmount).
      apply Qmult_le_compat_r; [|lra].
      apply Qle_shift_div_l; [change (inject_Z 1) with 1; lra|].
      change (inject_Z 1) with 1.
      setoid_replace (r * (pw - 1)) with (r * pw - r) by ring.
      lra.
Qed.

Section Loop.

Variables (financeAmount annualRate : Q) (months : Z) (startDate : Date).
Hypothesis financeAmount_pos : 0 < financeAmount.
Hypothesis annualRate_nonneg : 0 <= annualRate.
Hypothesis months_pos : (1 <= months)%Z.

Local Abbreviation monthlyPayment :=
  (calculateMonthlyPayment (H := Exact.rational)
     financeAmount annualRate (inject_Z months)).
Local Abbreviation monthlyRate := (annualRate / inject_Z 100 / inject_Z 12).

(** One turn never raises the running balance and keeps it in
    [[0, financeAmount]]. *)
Lemma schedule_step_balance (i : Z) (b : Q) :
  0 <= b <= financeAmount ->
  0 <= snd (schedule_step (H := Exact.rational)
              annualRate monthlyPayment monthlyRate months startDate i b) <= b.
Proof.
  intros Hb.
  pose proof (interest_le_payment financeAmount annualRate months b
                financeAmount_pos annualRate_nonneg months_pos Hb) as HI.
  set (I := if Qeq_bool annualRate (inject_Z 0) then inject_Z 0
            else b * monthlyRate) in *.
  change (snd (schedule_step (H := Exact.rational)
                 annualRate monthlyPayment monthlyRate months startDate i b))
    with (Exact.Math_max 0 (b - (monthlyPayment - I))).
  split; [apply Math_max_0_floor_exact|].
  unfold Exact.Math_max.
  destruct (Qle_bool 0 (b - (monthlyPayment - I))); lra.
Qed.

Lemma schedule_step_stored (i : Z) (b : Q) :
  balance (fst (schedule_step (H := Exact.rational)
                  annualRate monthlyPayment monthlyRate months startDate i b))
  = if (i =? months)%Z then inject_Z 0
    else round2Q (snd (schedule_step (H := Exact.rational)
                         annualRate monthlyPayment monthlyRate months startDate i b)).
Proof. reflexivity. Qed.

(** Along the loop that ends at turn [months]: every stored balance
    lies between [0] and the rounding of the balance the loop was
    entered with, and each stored balance is at most the one before. *)
Lemma schedule_loop_balances (fuel : nat) :
  forall (i : Z) (b : Q),
    (i + Z.of_nat fuel = months + 1)%Z ->
    0 <= b <= financeAmount ->
    let l := schedule_loop (H := Exact.rational)
               annualRate monthlyPayment monthlyRate months startDate fuel i b in
    (forall k (e : AmortizationEntry (@num Exact.rational)),
        nth_error l k = Some e -> 0 <= balance e <= round2Q b)
    /\ (forall k (e e' : AmortizationEntry (@num Exact.rational)),
           nth_error l k = Some e -> nth_error l (S k) = Some e' ->
           balance e' <= balance e).
Proof.
  induction fuel as [|fuel IH]; intros i b Hi Hb l.
  - split; intros [|k]; discriminate.
  - subst l. rewrite schedule_loop_S.
    pose proof (schedule_step_balance i b Hb) as Hstep.
    pose proof (schedule_step_stored i b) as Hstored.
    set (st := schedule_step (H := Exact.rational)
                 annualRate monthlyPayment monthlyRate months startDate i b) in *.
    assert (Hb' : 0 <= snd st <= financeAmount) by (destruct Hb, Hstep; split; lra).
    destruct (IH (i + 1)%Z (snd st) ltac:(lia) Hb') as [IHbound IHadj].
    assert (Hmono : round2Q (snd st) <= round2Q b)
      by (apply round2_mono; tauto).
    assert (Hnn : 0 <= round2Q (snd st)) by (apply round2_nonneg; tauto).
    split.
    + intros [|k] e; cbn [nth_error].
      * intros He. assert (Ee : e = fst st) by congruence. subst e.
        rewrite Hstored.
        destruct (i =? months)%Z; change (inject_Z 0) with 0; lra.
      * intros Hk. apply IHbound in Hk. lra.
    + intros [|k] e e'; cbn [nth_error].
      * intros He He'. assert (Ee : e = fst st) by congruence. subst e.
        rewrite Hstored.
        assert (Hlt : (i =? months)%Z = false).
        { apply Z.eqb_neq. destruct fuel; [discriminate He'|lia]. }
        rewrite Hlt. apply (IHbound 0%nat e') in He'. tauto.
      * apply IHadj.
Qed.

End Loop.

End ExactFacts.

(** * The claims *)

Local Open Scope num_scope.

(** ** Degenerate inputs and the length of a schedule *)

(** C9.  For every arithmetic, every [financeAmount] (zero and negative
    included), every [annualRate] and every [startDate]: with an integer
    [termMonths >= 1] the schedule has exactly [termMonths] entries, and the
    schedule is empty only when [termMonths <= 0].  The loop has no guard on
    [financeAmount]: in binary64, whatever [Math.pow] is,
    [generateAmortizationSchedule(0, 5, 60, d)] is 60 entries whose four
    monetary fields are all zero. *)
Theorem schedule_has_termMonths_entries :
  (forall (N : Number) (financeAmount annualRate : num) (months : Z) (startDate : Date),
      (1 <= months)%Z ->
      Z.of_nat (List.length
                  (generateAmortizationSchedule financeAmount annualRate months startDate))
      = months)
  /\ (forall (N : Number) (financeAmount annualRate : num) (months : Z) (startDate : Date),
      generateAmortizationSchedule financeAmount annualRate months startDate = []
      <-> (months <= 0)%Z)
  /\ (forall (pow : float -> float -> float) (startDate : Date),
      map money
        (generateAmortizationSchedule (H := IEEE.binary64 pow) 0%float 5%float 60 startDate)
      = repeat (0%float, 0%float, 0%float, 0%float) 60).
Proof.
  split; [|split].
  - intros N fA rate months d Hm.
    rewrite generateAmortizationSchedule_length. lia.
  - intros N fA rate months d. apply generateAmortizationSchedule_nil_iff.
  - intros pow d. vm_compute. reflexivity.
Qed.

Lemma schedule_has_termMonths_entries_witness :
  (1 <= 60)%Z /\
  Z.of_nat (List.length
              (generateAmortizationSchedule (H := IEEE.js) (-250)%float 5%float 60
                 (mkDate 2024 1 15))) = 60%Z.
Proof.
  split; [lia|].
  apply (proj1 schedule_has_termMonths_entries IEEE.js). lia.
Defined.

(** C2, as the code has it.  The schedule is empty whenever
    [termMonths <= 0], whatever [financeAmount] is; a [financeAmount <= 0]
    alone does not empty it: with [termMonths >= 1] there are [termMonths]
    entries all the same. *)
Theorem schedule_empty_without_months
    (N : Number) (financeAmount annualRate : num) (months : Z) (startDate : Date) :
  ((months <= 0)%Z ->
     generateAmortizationSchedule financeAmount annualRate months startDate = [])
  /\ ((1 <= months)%Z ->
     List.length (generateAmortizationSchedule financeAmount annualRate months startDate)
     = Z.to_nat months
     /\ generateAmortizationSchedule financeAmount annualRate months startDate <> []).
Proof.
  split.
  - apply generateAmortizationSchedule_nil_iff.
  - intros Hm. split; [apply generateAmortizationSchedule_length|].
    rewrite generateAmortizationSchedule_nil_iff. lia.
Qed.

Lemma schedule_empty_without_months_witness :
  ((0 <= 0)%Z /\
   generateAmortizationSchedule (H := IEEE.js) 1000%float 5%float 0 (mkDate 2024 1 15) = [])
  /\ ((1 <= 60)%Z /\
      List.length
        (generateAmortizationSchedule (H := IEEE.js) 0%float 5%float 60 (mkDate 2024 1 15))
      = 60%nat).
Proof.
  split; (split; [lia|]).
  - apply (proj1 (schedule_empty_without_months
                    IEEE.js 1000%float 5%float 0 (mkDate 2024 1 15))). lia.
  - apply (proj2 (schedule_empty_without_months
                    IEEE.js 0%float 5%float 60 (mkDate 2024 1 15))). lia.
Defined.

(** C2 fails as stated: [financeAmount = 0 <= 0], and yet
    [generateAmortizationSchedule(0, 5, 60, 2024-01-15)] has 60 entries. *)
Lemma zero_finance_schedule_not_empty :
  nleb (Number := IEEE.js) 0%float 0%float = true
  /\ generateAmortizationSchedule (H := IEEE.js) 0%float 5%float 60 (mkDate 2024 1 15) <> [].
Proof.
  split; [reflexivity|].
  intros E. apply (f_equal (@List.length _)) in E. vm_compute in E. discriminate.
Qed.

(** ** The payment formula *)

(** C6.  For every arithmetic and all numeric arguments,
    [calculateMonthlyPayment(principal, annualRate, months)] is a total
    function that returns [0] when [principal <= 0] or [months <= 0];
    otherwise [principal / months], unrounded, when [annualRate === 0]; and
    otherwise [principal * (r * (1+r)^months / ((1+r)^months - 1))] with
    [r = annualRate / 100 / 12]. *)
Theorem calculateMonthlyPayment_cases
    (N : Number) (principal annualRate months : num) :
  ((principal <=? $0) = true \/ (months <=? $0) = true ->
     calculateMonthlyPayment principal annualRate months = $0)
  /\ ((principal <=? $0) = false -> (months <=? $0) = false ->
      (annualRate =? $0) = true ->
      calculateMonthlyPayment principal annualRate months = principal / months)
  /\ ((principal <=? $0) = false -> (months <=? $0) = false ->
      (annualRate =? $0) = false ->
      let r := annualRate / $100 / $12 in
      calculateMonthlyPayment principal annualRate months
      = principal * (r * Math_pow ($1 + r) months / (Math_pow ($1 + r) months - $1))).
Proof.
  split; [|split].
  - apply calculateMonthlyPayment_guard.
  - apply calculateMonthlyPayment_zero_rate.
  - apply calculateMonthlyPayment_annuity.
Qed.

Lemma calculateMonthlyPayment_cases_witness :
  calculateMonthlyPayment (H := IEEE.js) 0%float 5%float 60%float = 0%float
  /\ calculateMonthlyPayment (H := IEEE.js) 1200%float 0%float 12%float
     = (1200 / 12)%float
  /\ calculateMonthlyPayment (H := IEEE.js) 1000%float 6%float 2%float
     = (let r := 6 / 100 / 12 in
        1000 * (r * IEEE.Math_pow_exact (1 + r) 2
                / (IEEE.Math_pow_exact (1 + r) 2 - 1)))%float.
Proof.
  split; [|split].
  - apply (proj1 (calculateMonthlyPayment_cases IEEE.js 0%float 5%float 60%float)).
    left. reflexivity.
  - apply (proj1 (proj2 (calculateMonthlyPayment_cases
                           IEEE.js 1200%float 0%float 12%float))); reflexivity.
  - apply (proj2 (proj2 (calculateMonthlyPayment_cases
                           IEEE.js 1000%float 6%float 2%float))); reflexivity.
Defined.

(** ** Derived metrics *)




(** ** The entries of a schedule *)

(** C4, as the code has it.  For every arithmetic and every input, each
    entry stores the 2-decimal rounding of the instalment computed on the
    unrounded balance: [interest] is [round2] of the unrounded interest;
    before the last entry [principal] is [round2(monthlyPayment - interest)]
    and [amount_due] is [round2(monthlyPayment)]; on the last entry
    [principal] is [round2(adjustedPrincipal)] and [amount_due] is
    [round2(adjustedPrincipal + interest)], with the unrounded
    [adjustedPrincipal = balance + principal] and the unrounded interest.
    The three fields are rounded independently of one another. *)
Theorem amount_due_rounds_unrounded_instalment
    (N : Number) (financeAmount annualRate : num) (months : Z) (startDate : Date)
    (k : nat) (e : AmortizationEntry num) :
  nth_error (generateAmortizationSchedule financeAmount annualRate months startDate) k
  = Some e ->
  let monthlyPayment := calculateMonthlyPayment financeAmount annualRate $months in
  let monthlyRate := annualRate / $100 / $12 in
  let balance_before :=
    carried_balance annualRate monthlyPayment monthlyRate months startDate
      1 k financeAmount in
  let interest_raw :=
    if annualRate =? $0 then $0 else balance_before * monthlyRate in
  let principal_raw := monthlyPayment - interest_raw in
  let balance_after := Math_max $0 (balance_before - principal_raw) in
  interest e = round2 interest_raw
  /\ (if (Z.of_nat k + 1 =? months)%Z
      then principal e = round2 (balance_after + principal_raw)
           /\ amount_due e = round2 (balance_after + principal_raw + interest_raw)
      else principal e = round2 principal_raw
           /\ amount_due e = round2 monthlyPayment).
Proof.
  intros Hk. apply generateAmortizationSchedule_nth in Hk.
  destruct Hk as [_ ->]. cbv zeta. unfold schedule_step.
  cbn [fst interest principal amount_due].
  destruct (Z.of_nat k + 1 =? months)%Z; repeat split.
Qed.

Lemma amount_due_rounds_unrounded_instalment_witness :
  let startDate := mkDate 2024 1 15 in
  let e :=
    @Build_AmortizationEntry float 2 (mkDate 2024 3 15)
      503.75%float 501.25%float 2.51%float 0%float in
  let monthlyPayment := calculateMonthlyPayment (H := IEEE.js) 1000%float 6%float 2%float in
  let monthlyRate := (6 / 100 / 12)%float in
  let balance_before :=
    carried_balance (H := IEEE.js) 6%float monthlyPayment monthlyRate 2 startDate
      1 1 1000%float in
  let interest_raw := (balance_before * monthlyRate)%float in
  let principal_raw := (monthlyPayment - interest_raw)%float in
  let balance_after := IEEE.Math_max 0%float (balance_before - principal_raw)%float in
  nth_error
    (generateAmortizationSchedule (H := IEEE.js) 1000%float 6%float 2 startDate) 1
  = Some e
  /\ interest e = round2 (H := IEEE.js) interest_raw
  /\ principal e = round2 (H := IEEE.js) (balance_after + principal_raw)%float
  /\ amount_due e
     = round2 (H := IEEE.js) (balance_after + principal_raw + interest_raw)%float.
Proof.
  intros startDate e monthlyPayment monthlyRate balance_before interest_raw
    principal_raw balance_after.
  assert (Hn : nth_error
                 (generateAmortizationSchedule (H := IEEE.js)
                    1000%float 6%float 2 startDate) 1 = Some e)
    by (vm_compute; reflexivity).
  split; [exact Hn|].
  exact (amount_due_rounds_unrounded_instalment
           IEEE.js 1000%float 6%float 2 startDate 1%nat e Hn).
Defined.

(** C4 fails as stated.  [generateAmortizationSchedule(1000, 6, 2,
    2024-01-15)]: the unrounded second instalment is interest 2.5062...,
    principal 501.2468..., payment 503.7531...; it is stored as
    [interest = 2.51], [principal = 501.25], [amount_due = 503.75], and
    [round2(501.25 + 2.51) = 503.76].  Exact arithmetic stores the same
    three values. *)
Lemma amount_due_decomposition_fails :
  (exists e : AmortizationEntry float,
      nth_error
        (generateAmortizationSchedule (H := IEEE.js)
           1000%float 6%float 2 (mkDate 2024 1 15)) 1
      = Some e
      /\ amount_due e = 503.75%float
      /\ principal e = 501.25%float
      /\ interest e = 2.51%float
      /\ round2 (H := IEEE.js) (principal e + interest e)%float = 503.76%float
      /\ neqb (Number := IEEE.js) (amount_due e)
           (round2 (H := IEEE.js) (principal e + interest e)%float) = false)
  /\ (exists e : AmortizationEntry Q,
         nth_error
           (generateAmortizationSchedule (H := Exact.rational)
              1000%Q 6%Q 2 (mkDate 2024 1 15)) 1
         = Some e
         /\ Qeq_bool (amount_due e) (50375 # 100) = true
         /\ Qeq_bool (principal e) (50125 # 100) = true
         /\ Qeq_bool (interest e) (251 # 100) = true
         /\ Qeq_bool (amount_due e)
              (round2 (H := Exact.rational) (principal e + interest e)%Q) = false).
Proof.
  split.
  - eexists. split; [vm_compute; reflexivity|].
    repeat split; vm_compute; reflexivity.
  - eexists. split; [vm_compute; reflexivity|].
    repeat split; vm_compute; reflexivity.
Qed.

(** ** The remaining balance *)

(** C10.  For every arithmetic, [calculateRemainingBalance] returns exactly
    [0] whenever [paymentsMade >= totalMonths].  Its result is the value of
    [Math.max(0, round2(balance))]: in exact arithmetic it is always [>= 0];
    in binary64, whatever [Math.pow] is, it is [>= 0] whenever it is a
    number at all ([Math.max] hands a NaN through). *)
Theorem calculateRemainingBalance_floor :
  (forall (N : Number) (originalPrincipal annualRate : num) (totalMonths paymentsMade : Z),
      (paymentsMade >= totalMonths)%Z ->
      calculateRemainingBalance originalPrincipal annualRate totalMonths paymentsMade
      = $0)
  /\ (forall (originalPrincipal annualRate : Q) (totalMonths paymentsMade : Z),
      (0 <= calculateRemainingBalance (H := Exact.rational)
              originalPrincipal annualRate totalMonths paymentsMade)%Q)
  /\ (forall (pow : float -> float -> float)
             (originalPrincipal annualRate : float) (totalMonths paymentsMade : Z),
      let result :=
        calculateRemainingBalance (H := IEEE.binary64 pow)
          originalPrincipal annualRate totalMonths paymentsMade in
      PrimFloat.is_nan result = false -> PrimFloat.leb 0 result = true).
Proof.
  split; [|split].
  - intros N P rate total made Hge. unfold calculateRemainingBalance.
    rewrite Z.geb_leb. destruct (Z.leb_spec total made); [reflexivity|lia].
  - intros P rate total made. unfold calculateRemainingBalance.
    destruct (made >=? total)%Z; [apply Qle_refl|].
    apply ExactFacts.Math_max_0_floor_exact.
  - intros pow P rate total made. unfold calculateRemainingBalance.
    destruct (made >=? total)%Z; [reflexivity|].
    cbv zeta. apply IEEEFacts.Math_max_0_floor_binary64.
Qed.

Lemma calculateRemainingBalance_floor_witness :
  ((60 >= 60)%Z /\
   calculateRemainingBalance (H := IEEE.js) 10000%float 9.9%float 60 60 = 0%float)
  /\ (PrimFloat.is_nan
        (calculateRemainingBalance (H := IEEE.js) 10000%float 9.9%float 60 12) = false
      /\ PrimFloat.leb 0
           (calculateRemainingBalance (H := IEEE.js) 10000%float 9.9%float 60 12) = true).
Proof.
  split; split.
  - lia.
  - apply (proj1 calculateRemainingBalance_floor IEEE.js). lia.
  - vm_compute. reflexivity.
  - apply (proj2 (proj2 calculateRemainingBalance_floor)
             IEEE.Math_pow_exact 10000%float 9.9%float 60%Z 12%Z).
    vm_compute. reflexivity.
Defined.

(** C10 fails as stated: its result is not always [>= 0].  At the finite
    input [calculateRemainingBalance(1000, 1200000, 200, 1)] the monthly rate
    is [1000], [Math.pow(1001, 200)] overflows to [Infinity], the monthly
    payment is [Infinity / Infinity = NaN], and the result is NaN, which is
    not [>= 0]: [Math.max(0, NaN)] is NaN.  So it is for every [Math.pow]
    that overflows there. *)
Lemma calculateRemainingBalance_can_be_NaN :
  (forall pow : float -> float -> float,
      pow 1001%float 200%float = infinity ->
      PrimFloat.is_nan
        (calculateRemainingBalance (H := IEEE.binary64 pow)
           1000%float 1200000%float 200 1) = true
      /\ PrimFloat.leb 0
           (calculateRemainingBalance (H := IEEE.binary64 pow)
              1000%float 1200000%float 200 1) = false)
  /\ IEEE.Math_pow_exact 1001%float 200%float = infinity
  /\ PrimFloat.is_nan
       (calculateRemainingBalance (H := IEEE.js) 1000%float 1200000%float 200 1) = true
  /\ PrimFloat.leb 0
       (calculateRemainingBalance (H := IEEE.js) 1000%float 1200000%float 200 1) = false.
Proof.
  assert (Hevery : forall pow : float -> float -> float,
             pow 1001%float 200%float = infinity ->
             PrimFloat.is_nan
               (calculateRemainingBalance (H := IEEE.binary64 pow)
                  1000%float 1200000%float 200 1) = true
             /\ PrimFloat.leb 0
                  (calculateRemainingBalance (H := IEEE.binary64 pow)
                     1000%float 1200000%float 200 1) = false).
  { intros pow Hpow.
    assert (E : calculateRemainingBalance (H := IEEE.binary64 pow)
                  1000%float 1200000%float 200 1 = nan).
    { unfold calculateRemainingBalance.
      change (1 >=? 200)%Z with false. cbv iota zeta.
      rewrite (IEEEFacts.overflowing_payment_is_NaN pow Hpow).
      vm_compute. reflexivity. }
    rewrite E. split; reflexivity. }
  split; [exact Hevery|].
  split; [exact IEEEFacts.Math_pow_exact_overflow|].
  exact (Hevery IEEE.Math_pow_exact IEEEFacts.Math_pow_exact_overflow).
Qed.

(** ** The sum of the stored principal *)

(** C1, at [generateAmortizationSchedule(100, 0, 3, d)].  In binary64,
    whatever [Math.pow] and [d] are, the three entries store
    [principal = 33.33], their sum is [99.99], and [round2(100) = 100]; exact
    arithmetic gives the same sum, [9999/100].  On the spec's scenario
    (10000, 9.9, 60) the stored principal sums to [10000.02]. *)
Theorem principal_sum_misses_financeAmount :
  (forall (pow : float -> float -> float) (startDate : Date),
      let schedule :=
        generateAmortizationSchedule (H := IEEE.binary64 pow)
          100%float 0%float 3 startDate in
      map principal schedule = [33.33%float; 33.33%float; 33.33%float]
      /\ schedule_principal schedule = 99.99%float
      /\ round2 (H := IEEE.binary64 pow) 100%float = 100%float
      /\ neqb (Number := IEEE.binary64 pow)
           (schedule_principal schedule) (round2 (H := IEEE.binary64 pow) 100%float)
         = false)
  /\ (forall startDate : Date,
      let schedule :=
        generateAmortizationSchedule (H := Exact.rational) 100%Q 0%Q 3 startDate in
      Qeq_bool (schedule_principal schedule) (9999 # 100) = true
      /\ Qeq_bool (schedule_principal schedule) (round2 (H := Exact.rational) 100%Q)
         = false)
  /\ (forall startDate : Date,
      schedule_principal
        (generateAmortizationSchedule (H := IEEE.js) 10000%float 9.9%float 60 startDate)
      = 10000.02%float).
Proof.
  split; [|split].
  - intros pow d. cbv zeta. repeat split; vm_compute; reflexivity.
  - intros d. cbv zeta. split; vm_compute; reflexivity.
  - intros d. vm_compute. reflexivity.
Qed.

(** C3.  With [annualRate = 0], in exact arithmetic and for every
    [financeAmount], [termMonths] and [startDate], every entry has
    [interest == 0] and [principal == amount_due].  At
    [generateAmortizationSchedule(100, 0, 3, d)] in binary64, whatever
    [Math.pow] and [d] are, this holds as well, and the stored principal
    sums to [99.99], not to [financeAmount = 100]. *)
Theorem zero_rate_schedule_sum_misses_financeAmount :
  (forall (financeAmount : Q) (months : Z) (startDate : Date),
      Forall (fun e : AmortizationEntry Q =>
                (interest e == 0)%Q /\ (principal e == amount_due e)%Q)
        (generateAmortizationSchedule (H := Exact.rational)
           financeAmount 0%Q months startDate))
  /\ (forall (pow : float -> float -> float) (startDate : Date),
      let schedule :=
        generateAmortizationSchedule (H := IEEE.binary64 pow)
          100%float 0%float 3 startDate in
      Forall (fun e : AmortizationEntry float =>
                interest e = 0%float /\ principal e = amount_due e) schedule
      /\ schedule_principal schedule = 99.99%float
      /\ neqb (Number := IEEE.binary64 pow) (schedule_principal schedule) 100%float
         = false).
Proof.
  split.
  - exact ExactFacts.zero_rate_entries.
  - intros pow d. cbv zeta. split; [|split]; [|vm_compute; reflexivity..].
    repeat constructor; vm_compute; reflexivity.
Qed.

(** ** The stored balance *)

(** C5, as the code has it.  For every arithmetic and every integer
    [termMonths >= 1] the last entry's balance is exactly [0].  In binary64,
    whatever [Math.pow] and the inputs are, no stored balance is negative:
    each is [>= 0] unless it is NaN.  In binary64 the stored balances of the
    schedules for (10000, 9.9, 60), (250000, 7.25, 36) and (100, 0, 3) never
    increase from one entry to the next.  With the formulas evaluated in
    exact arithmetic they never increase for every [financeAmount > 0],
    [annualRate >= 0], [termMonths >= 1] and [startDate]. *)
Theorem balance_ends_at_zero_and_is_never_negative :
  (forall (N : Number) (financeAmount annualRate : num) (months : Z) (startDate : Date),
      (1 <= months)%Z ->
      exists e,
        nth_error (generateAmortizationSchedule financeAmount annualRate months startDate)
          (Z.to_nat months - 1) = Some e
        /\ balance e = $0)
  /\ (forall (pow : float -> float -> float) (financeAmount annualRate : float)
             (months : Z) (startDate : Date) (e : AmortizationEntry float),
      In e (generateAmortizationSchedule (H := IEEE.binary64 pow)
              financeAmount annualRate months startDate) ->
      PrimFloat.is_nan (balance e) = false -> PrimFloat.leb 0 (balance e) = true)
  /\ (forall startDate : Date,
      IEEE.nonincreasing
        (map balance
           (generateAmortizationSchedule (H := IEEE.js)
              10000%float 9.9%float 60 startDate)) = true
      /\ IEEE.nonincreasing
           (map balance
              (generateAmortizationSchedule (H := IEEE.js)
                 250000%float 7.25%float 36 startDate)) = true
      /\ IEEE.nonincreasing
           (map balance
              (generateAmortizationSchedule (H := IEEE.js)
                 100%float 0%float 3 startDate)) = true)
  /\ (forall (financeAmount annualRate : Q) (months : Z) (startDate : Date),
      (0 < financeAmount)%Q -> (0 <= annualRate)%Q -> (1 <= months)%Z ->
      forall (i : nat) (e e' : AmortizationEntry Q),
        nth_error
          (generateAmortizationSchedule (H := Exact.rational)
             financeAmount annualRate months startDate) i = Some e ->
        nth_error
          (generateAmortizationSchedule (H := Exact.rational)
             financeAmount annualRate months startDate) (S i) = Some e' ->
        (balance e' <= balance e)%Q).
Proof.
  split; [|split; [|split]].
  - intros N. apply last_entry_balance.
  - intros pow fA rate months d e Hin.
    apply In_nth_error in Hin. destruct Hin as [k Hk].
    apply (generateAmortizationSchedule_nth (H := IEEE.binary64 pow)) in Hk.
    destruct Hk as [_ ->].
    apply IEEEFacts.sign_clear_leb, IEEEFacts.stored_balance_sign.
  - intros d. split; [|split]; vm_compute; reflexivity.
  - intros fA rate months d HfA Hrate Hm i e e'.
    unfold generateAmortizationSchedule.
    apply (proj2 (ExactFacts.schedule_loop_balances
                    fA rate months d HfA Hrate Hm (Z.to_nat months) 1%Z fA
                    ltac:(lia) ltac:(split; [apply Qlt_le_weak, HfA|apply Qle_refl]))).
Qed.

Lemma balance_ends_at_zero_and_is_never_negative_witness :
  ((1 <= 2)%Z
   /\ exists e : AmortizationEntry float,
        nth_error
          (generateAmortizationSchedule (H := IEEE.js)
             1000%float 6%float 2 (mkDate 2024 1 15)) (Z.to_nat 2 - 1) = Some e
        /\ balance e = 0%float)
  /\ (exists e : AmortizationEntry float,
         (In e (generateAmortizationSchedule (H := IEEE.js)
                  1000%float 6%float 2 (mkDate 2024 1 15))
          /\ PrimFloat.is_nan (balance e) = false)
         /\ PrimFloat.leb 0 (balance e) = true).
Proof.
  split.
  - split; [lia|].
    apply (proj1 balance_ends_at_zero_and_is_never_negative IEEE.js). lia.
  - eexists.
    assert (Hin : In _ (generateAmortizationSchedule (H := IEEE.js)
                          1000%float 6%float 2 (mkDate 2024 1 15)))
      by (vm_compute; left; reflexivity).
    split; [split; [exact Hin|vm_compute; reflexivity]|].
    refine (proj1 (proj2 balance_ends_at_zero_and_is_never_negative)
              IEEE.Math_pow_exact _ _ _ _ _ Hin _).
    vm_compute. reflexivity.
Defined.

(** C5 fails as stated: the stored balance is not non-increasing for every
    [financeAmount > 0], [annualRate >= 0] and positive integer [termMonths].
    At [generateAmortizationSchedule(1000, 1200000, 200, 2024-01-15)] the
    monthly rate is [1000], [Math.pow(1001, 200)] overflows to [Infinity],
    the monthly payment is NaN, and the first two entries store the balance
    NaN: [entry[1].balance <= entry[0].balance] is false.  So it is for every
    [Math.pow] that overflows there. *)
Lemma balance_is_not_monotone :
  (PrimFloat.ltb 0 1000 = true /\ PrimFloat.leb 0 1200000 = true /\ (1 <= 200)%Z)
  /\ (forall pow : float -> float -> float,
         pow 1001%float 200%float = infinity ->
         exists e e' : AmortizationEntry float,
           nth_error
             (generateAmortizationSchedule (H := IEEE.binary64 pow)
                1000%float 1200000%float 200 (mkDate 2024 1 15)) 0 = Some e
           /\ nth_error
                (generateAmortizationSchedule (H := IEEE.binary64 pow)
                   1000%float 1200000%float 200 (mkDate 2024 1 15)) 1 = Some e'
           /\ PrimFloat.is_nan (balance e) = true
           /\ PrimFloat.is_nan (balance e') = true
           /\ PrimFloat.leb (balance e') (balance e) = false)
  /\ IEEE.Math_pow_exact 1001%float 200%float = infinity
  /\ (exists e e' : AmortizationEntry float,
         nth_error
           (generateAmortizationSchedule (H := IEEE.js)
              1000%float 1200000%float 200 (mkDate 2024 1 15)) 0 = Some e
         /\ nth_error
              (generateAmortizationSchedule (H := IEEE.js)
                 1000%float 1200000%float 200 (mkDate 2024 1 15)) 1 = Some e'
         /\ PrimFloat.is_nan (balance e) = true
         /\ PrimFloat.is_nan (balance e') = true
         /\ PrimFloat.leb (balance e') (balance e) = false).
Proof.
  assert (Hevery : forall pow : float -> float -> float,
             pow 1001%float 200%float = infinity ->
             exists e e' : AmortizationEntry float,
               nth_error
                 (generateAmortizationSchedule (H := IEEE.binary64 pow)
                    1000%float 1200000%float 200 (mkDate 2024 1 15)) 0 = Some e
               /\ nth_error
                    (generateAmortizationSchedule (H := IEEE.binary64 pow)
                       1000%float 1200000%float 200 (mkDate 2024 1 15)) 1 = Some e'
               /\ PrimFloat.is_nan (balance e) = true
               /\ PrimFloat.is_nan (balance e') = true
               /\ PrimFloat.leb (balance e') (balance e) = false).
  { intros pow Hpow.
    unfold generateAmortizationSchedule. cbv zeta.
    rewrite (IEEEFacts.overflowing_payment_is_NaN pow Hpow).
    rewrite !schedule_loop_nth by (apply Nat.ltb_lt; reflexivity).
    eexists. eexists.
    split; [reflexivity|]. split; [reflexivity|].
    split; [|split]; vm_compute; reflexivity. }
  split; [split; [reflexivity|split; [reflexivity|lia]]|].
  split; [exact Hevery|].
  split; [exact IEEEFacts.Math_pow_exact_overflow|].
  exact (Hevery IEEE.Math_pow_exact IEEEFacts.Math_pow_exact_overflow).
Qed.

(** * More of [src/lib/calculations.ts] and of the pages that call it *)

(** The operations of [Exact.rational] are those of [Q]. *)
Ltac as_Q :=
  change (@num Exact.rational) with Q in *;
  change (@nadd Exact.rational) with Qplus in *;
  change (@nsub Exact.rational) with Qminus in *;
  change (@nmul Exact.rational) with Qmult in *;
  change (@ndiv Exact.rational) with Qdiv in *;
  change (@of_Z Exact.rational) with inject_Z in *.

(** ** Numbering, and the rows made from a schedule, for every arithmetic *)

Section PaymentFacts.

Context `{Number}.
Open Scope num_scope.

Lemma schedule_loop_numbering annualRate monthlyPayment monthlyRate months startDate fuel :
  forall i balance,
    map (fun e => (payment_number e, due_date e))
      (schedule_loop annualRate monthlyPayment monthlyRate months startDate
         fuel i balance)
    = map (fun k => ((i + Z.of_nat k)%Z, addMonths startDate (i + Z.of_nat k)))
        (seq 0 fuel).
Proof.
  induction fuel as [|fuel IH]; intros i b; [reflexivity|].
  rewrite schedule_loop_S. cbn [map seq]. rewrite IH, <- seq_shift, map_map.
  f_equal.
  - unfold schedule_step. cbn [fst payment_number due_date].
    now rewrite Z.add_0_r.
  - apply map_ext. intros k.
    now replace (i + 1 + Z.of_nat k)%Z with (i + Z.of_nat (S k))%Z by lia.
Qed.

Lemma stored_newPayments_status format sale_id (schedule : list (AmortizationEntry num)) :
  Forall (fun p => Payment.status p = "pending"%string
                   /\ Payment.paid_amount p = None)
    (map stored (newPayments format sale_id schedule)).
Proof.
  unfold newPayments. rewrite map_map. apply Forall_forall.
  intros p Hin. apply in_map_iff in Hin. destruct Hin as [e [<- _]].
  split; reflexivity.
Qed.

Lemma pending_not_paid (ps : list (Payment.t num)) :
  Forall (fun p => Payment.status p = "pending"%string
                   /\ Payment.paid_amount p = None) ps ->
  filter (fun p => String.eqb (Payment.status p) "paid") ps = [].
Proof.
  induction 1 as [|p ps [Hp _] _ IH]; [reflexivity|].
  cbn [filter]. rewrite Hp, IH. reflexivity.
Qed.

Lemma stored_newPayments_principal format sale_id
    (schedule : list (AmortizationEntry num)) :
  sum_principal (map stored (newPayments format sale_id schedule))
  = schedule_principal schedule.
Proof.
  unfold sum_principal, schedule_principal, newPayments.
  generalize ($0). induction schedule as [|e schedule IH]; intros acc; [reflexivity|].
  cbn [map fold_left]. apply IH.
Qed.

Lemma all_paid_filter (ps : list (Payment.t num)) :
  Forall (fun p => Payment.status p = "paid"%string) ps ->
  filter (fun p => String.eqb (Payment.status p) "paid") ps = ps.
Proof.
  induction 1 as [|p ps Hp _ IH]; [reflexivity|].
  cbn [filter]. rewrite Hp, String.eqb_refl, IH. reflexivity.
Qed.

End PaymentFacts.

(** ** binary64 *)

Module FloatFacts.

(** [x - x] is [+0] for every finite [x], and NaN otherwise. *)
Lemma sub_diag_binary64 (x : float) :
  PrimFloat.sub x x = 0%float \/ PrimFloat.sub x x = nan.
Proof.
  rewrite <- (SF2Prim_Prim2SF (PrimFloat.sub x x)), sub_spec.
  destruct (Prim2SF x) as [[|]|[|]| |s m e]; cbn [SF64sub SFsub];
    try (left; reflexivity); try (right; reflexivity).
  left. unfold SF64sub, SFsub. cbv zeta.
  rewrite Z.sub_diag. reflexivity.
Qed.

(** NaN absorbs a product and a quotient. *)
Lemma nan_mul (y : float) : PrimFloat.mul nan y = nan.
Proof.
  rewrite <- (SF2Prim_Prim2SF (PrimFloat.mul nan y)), mul_spec.
  reflexivity.
Qed.

Lemma nan_div (y : float) : PrimFloat.div nan y = nan.
Proof.
  rewrite <- (SF2Prim_Prim2SF (PrimFloat.div nan y)), div_spec.
  reflexivity.
Qed.

(** *** The sign of a difference *)

Lemma digits2_pos_bounds (m : positive) :
  (2 ^ (Z.pos (digits2_pos m) - 1) <= Z.pos m < 2 ^ Z.pos (digits2_pos m))%Z.
Proof.
  induction m as [m IH|m IH|]; cbn [digits2_pos]; [| |split; reflexivity].
  - rewrite Pos2Z.inj_succ.
    replace (Z.succ (Z.pos (digits2_pos m)) - 1)%Z
      with (Z.succ (Z.pos (digits2_pos m) - 1))%Z by lia.
    rewrite !Z.pow_succ_r by lia. lia.
  - rewrite Pos2Z.inj_succ.
    replace (Z.succ (Z.pos (digits2_pos m)) - 1)%Z
      with (Z.succ (Z.pos (digits2_pos m) - 1))%Z by lia.
    rewrite !Z.pow_succ_r by lia. lia.
Qed.

(** A canonical mantissa has at most 53 digits, and exactly 53 above the
    least exponent. *)
Lemma bounded_mantissa (s : bool) (m : positive) (e : Z) :
  valid_binary (S754_finite s m e) = true ->
  (Z.pos m < 2 ^ 53)%Z /\ (-1074 <= e)%Z /\ ((-1074 < e)%Z -> (2 ^ 52 <= Z.pos m)%Z).
Proof.
  cbn [valid_binary]. unfold bounded, canonical_mantissa, fexp.
  intros Hvalid. apply andb_prop in Hvalid. destruct Hvalid as [Hcanon _].
  apply Z.eqb_eq in Hcanon.
  change (SpecFloat.emin prec emax) with (-1074)%Z in Hcanon.
  change prec with 53%Z in Hcanon.
  pose proof (digits2_pos_bounds m) as [Hlow Hhigh].
  assert (Hd : (Z.pos (digits2_pos m) <= 53)%Z) by lia.
  split; [|split].
  - apply Z.lt_le_trans with (1 := Hhigh). apply Z.pow_le_mono_r; lia.
  - lia.
  - intros He. replace (Z.pos (digits2_pos m)) with 53%Z in Hlow by lia.
    exact Hlow.
Qed.

Lemma shl_align_value (m : positive) (e e' : Z) :
  (e' <= e)%Z -> Z.pos (fst (shl_align m e e')) = (Z.pos m * 2 ^ (e - e'))%Z.
Proof.
  intros Hle. unfold shl_align.
  destruct (e' - e)%Z as [|d|d] eqn:Ed; cbn [fst].
  - replace (e - e')%Z with 0%Z by lia. lia.
  - lia.
  - change (Pos.iter xO m d) with (shift_pos d m).
    rewrite shift_pos_correct. replace (e - e')%Z with (Z.pos d) by lia.
    rewrite Z.pow_pos_fold. lia.
Qed.

(** NaN, a zero, or a number whose sign bit is set. *)
Local Abbreviation not_positive f := (sign_or_nan true f \/ f = S754_zero false).

Lemma binary_normalize_not_positive (z e : Z) :
  (z <= 0)%Z -> not_positive (binary_normalize prec emax z e false).
Proof.
  intros Hz. destruct z as [|p|p]; cbn [binary_normalize].
  - right. reflexivity.
  - lia.
  - left. apply IEEEFacts.binary_round_sign.
Qed.

Lemma pow2_ge_2 (d : Z) : (0 < d)%Z -> (2 <= 2 ^ d)%Z.
Proof.
  intros Hd. change 2%Z with (2 ^ 1)%Z at 1. apply Z.pow_le_mono_r; lia.
Qed.

(** [x <= y] makes [x - y] NaN, a zero or negative. *)
Lemma SFsub_not_positive (x y : spec_float) :
  valid_binary x = true -> valid_binary y = true ->
  SFleb x y = true -> not_positive (SFsub prec emax x y).
Proof.
  intros Vx Vy. unfold SFleb.
  destruct x as [sx|sx| |sx mx ex], y as [sy|sy| |sy my ey];
    cbn [SFcompare SFsub sign_or_nan]; intros Hle;
    try discriminate Hle;
    try (destruct sx; try discriminate Hle);
    try (destruct sy; try discriminate Hle);
    try (left; reflexivity); try (left; exact I); try (right; reflexivity).
  all: cbv zeta; apply binary_normalize_not_positive; cbn [cond_Zopp].
  all: pose proof (bounded_mantissa _ _ _ Vx) as [Hx53 [Hxmin Hx52]].
  all: pose proof (bounded_mantissa _ _ _ Vy) as [Hy53 [Hymin Hy52]].
  - (* both negative *)
    destruct (Z.compare_spec ex ey) as [E|Hlt|Hgt]; try discriminate Hle.
    + subst ey. rewrite Z.min_id, !shl_align_value, Z.sub_diag by lia.
      rewrite Pos.compare_cont_spec in Hle. cbn [Pos.switch_Eq] in Hle.
      destruct (Pos.compare_spec mx my) as [E|Hlt|Hgt];
        cbn [CompOpp] in Hle; try discriminate Hle; lia.
    + rewrite Z.min_r, !shl_align_value, Z.sub_diag by lia.
      pose proof (pow2_ge_2 (ex - ey) ltac:(lia)). specialize (Hx52 ltac:(lia)). nia.
  - (* negative minus positive *)
    lia.
  - (* both positive *)
    destruct (Z.compare_spec ex ey) as [E|Hlt|Hgt]; try discriminate Hle.
    + subst ey. rewrite Z.min_id, !shl_align_value, Z.sub_diag by lia.
      rewrite Pos.compare_cont_spec in Hle. cbn [Pos.switch_Eq] in Hle.
      destruct (Pos.compare_spec mx my) as [E|Hlt|Hgt];
        try discriminate Hle; lia.
    + rewrite Z.min_l, !shl_align_value, Z.sub_diag by lia.
      pose proof (pow2_ge_2 (ey - ex) ltac:(lia)). specialize (Hy52 ltac:(lia)). nia.
Qed.

Lemma sub_not_positive (x y : float) :
  PrimFloat.leb x y = true ->
  sign_or_nan true (Prim2SF (x - y)) \/ Prim2SF (x - y) = S754_zero false.
Proof.
  rewrite leb_spec, sub_spec.
  apply SFsub_not_positive; apply Prim2SF_valid.
Qed.

(** [Math.max(0, d)] is [+0] for a [d] that is a zero or negative. *)
Lemma Math_max_0_not_positive (d : float) :
  sign_or_nan true (Prim2SF d) \/ Prim2SF d = S754_zero false ->
  PrimFloat.is_nan d = false -> IEEE.Math_max 0 d = 0%float.
Proof.
  intros Hd Hnan. unfold IEEE.Math_max. rewrite Hnan.
  change (PrimFloat.is_nan 0) with false.
  change (PrimFloat.is_zero 0) with true.
  change (PrimFloat.get_sign 0) with false.
  cbn [orb andb].
  destruct (PrimFloat.is_zero d); [reflexivity|].
  destruct (PrimFloat.ltb 0 d) eqn:Hlt; [|reflexivity].
  rewrite ltb_spec in Hlt. change (Prim2SF 0) with (S754_zero false) in Hlt.
  destruct Hd as [Hd | Hd].
  - destruct (Prim2SF d) as [s|s| |s m e]; cbn [sign_or_nan] in Hd; subst;
      discriminate Hlt.
  - rewrite Hd in Hlt. discriminate Hlt.
Qed.

Lemma Math_max_0_nan (d : float) :
  PrimFloat.is_nan d = true -> IEEE.Math_max 0 d = nan.
Proof. intros Hnan. unfold IEEE.Math_max. rewrite Hnan, orb_true_r. reflexivity. Qed.

(** With every payment paid the payoff is [+0] or NaN. *)
Lemma payoff_all_paid_0_or_nan (pow : float -> float -> float)
    (payments : list (Payment.t float)) :
  Forall (fun p => Payment.status p = "paid"%string) payments ->
  calculatePayoffAmount (H := IEEE.binary64 pow) payments = 0%float
  \/ calculatePayoffAmount (H := IEEE.binary64 pow) payments = nan.
Proof.
  intros Hpaid. unfold calculatePayoffAmount.
  rewrite (all_paid_filter (H := IEEE.binary64 pow) payments Hpaid).
  change (@nsub (IEEE.binary64 pow)) with PrimFloat.sub.
  destruct (sub_diag_binary64
              (sum_principal (H := IEEE.binary64 pow) payments)) as [-> | ->];
    [left|right]; vm_compute; reflexivity.
Qed.

Lemma fold_0_or_nan (f : Sale.t float -> float) (sales : list (Sale.t float)) :
  Forall (fun s => f s = 0%float \/ f s = nan) sales ->
  forall acc : float,
    acc = 0%float \/ acc = nan ->
    fold_left (fun sum s => (sum + f s)%float) sales acc = 0%float
    \/ fold_left (fun sum s => (sum + f s)%float) sales acc = nan.
Proof.
  induction 1 as [|s sales Hs _ IH]; intros acc Hacc; [exact Hacc|].
  cbn [fold_left]. apply IH.
  destruct Hacc as [-> | ->], Hs as [-> | ->];
    [left|right|right|right]; reflexivity.
Qed.

End FloatFacts.

(** ** Exact arithmetic *)

Module CentsFacts.

Local Open Scope Q_scope.

Lemma Math_max_0_nonneg (x : Q) : 0 <= x -> Exact.Math_max 0 x = x.
Proof.
  intros Hx. unfold Exact.Math_max.
  apply Qle_bool_iff in Hx. rewrite Hx. reflexivity.
Qed.

End CentsFacts.

Module PayoffFacts.

Local Open Scope Q_scope.

Local Abbreviation paid :=
  (fun p : Payment.t Q => String.eqb (Payment.status p) "paid").
Local Abbreviation sumQ := (sum_principal (H := Exact.rational)).
Local Abbreviation round2Q := (round2 (H := Exact.rational)).

Lemma payoff_unfold (ps : list (Payment.t Q)) :
  calculatePayoffAmount (H := Exact.rational) ps
  = round2Q (sumQ ps - sumQ (filter paid ps)).
Proof. reflexivity. Qed.

(** With every payment paid nothing is left to pay off. *)
Lemma payoff_all_paid (ps : list (Payment.t Q)) :
  Forall (fun p => Payment.status p = "paid"%string) ps ->
  calculatePayoffAmount (H := Exact.rational) ps == 0.
Proof.
  intros Hpaid. rewrite payoff_unfold.
  pose proof (all_paid_filter (H := Exact.rational) ps Hpaid) as Efilter.
  as_Q. rewrite Efilter.
  assert (E : sumQ ps - sumQ ps == 0) by (as_Q; lra).
  rewrite (ExactFacts.round2_eq _ _ E). reflexivity.
Qed.

End PayoffFacts.

(** * Further properties of the code *)

(** ** Payment numbers and due dates *)

(** X7.  For every arithmetic and every input, the entries are numbered
    [1, 2, ..., termMonths] in order, and entry [i] is due
    [addMonths(startDate, i)]. *)
Theorem schedule_numbering_and_due_dates :
  forall (N : Number) (financeAmount annualRate : num) (months : Z) (startDate : Date),
    map (fun e => (payment_number e, due_date e))
      (generateAmortizationSchedule financeAmount annualRate months startDate)
    = map (fun k => (Z.of_nat k + 1, addMonths startDate (Z.of_nat k + 1))%Z)
        (seq 0 (Z.to_nat months)).
Proof.
  intros N fA rate months d. unfold generateAmortizationSchedule.
  rewrite schedule_loop_numbering. apply map_ext. intros k.
  now rewrite (Z.add_comm 1).
Qed.

(** ** The details of a sale *)

(** X9.  In binary64, whatever [Math.pow], the rate and the term are: when
    [sale_price <= down_payment], [calculateSaleDetails] finances nothing,
    [finance_amount] and [monthly_payment] are [0], unless [finance_amount]
    is NaN (the difference of two infinities). *)
Theorem calculateSaleDetails_nothing_financed
    (pow : float -> float -> float) (formData : SaleFormData float) :
  PrimFloat.leb (sale_price formData) (down_payment formData) = true ->
  PrimFloat.is_nan
    (finance_amount (calculateSaleDetails (H := IEEE.binary64 pow) formData)) = false ->
  finance_amount (calculateSaleDetails (H := IEEE.binary64 pow) formData) = 0%float
  /\ monthly_payment (calculateSaleDetails (H := IEEE.binary64 pow) formData) = 0%float.
Proof.
  intros Hcovered.
  unfold calculateSaleDetails. cbn [finance_amount monthly_payment].
  unfold calculateFinanceAmount.
  change (@Math_max (IEEE.binary64 pow)) with IEEE.Math_max.
  change (@nsub (IEEE.binary64 pow)) with PrimFloat.sub.
  change (@of_Z (IEEE.binary64 pow) 0) with 0%float.
  change (@num (IEEE.binary64 pow)) with float.
  destruct (PrimFloat.is_nan (sale_price formData - down_payment formData)%float)
    eqn:Hnan.
  - rewrite (FloatFacts.Math_max_0_nan _ Hnan). intros H. vm_compute in H.
    discriminate H.
  - rewrite (FloatFacts.Math_max_0_not_positive _
               (FloatFacts.sub_not_positive _ _ Hcovered) Hnan).
    intros _. split; [vm_compute; reflexivity|].
    rewrite (calculateMonthlyPayment_guard (H := IEEE.binary64 pow))
      by (left; reflexivity).
    vm_compute. reflexivity.
Qed.

Lemma calculateSaleDetails_nothing_financed_witness :
  exists formData : SaleFormData float,
    (PrimFloat.leb (sale_price formData) (down_payment formData) = true
     /\ PrimFloat.is_nan
          (finance_amount (calculateSaleDetails (H := IEEE.js) formData)) = false)
    /\ finance_amount (calculateSaleDetails (H := IEEE.js) formData) = 0%float
    /\ monthly_payment (calculateSaleDetails (H := IEEE.js) formData) = 0%float.
Proof.
  exists (@Build_SaleFormData float "lot-7" "buyer-1" "2024-01-15"
            1000%float 1500%float 9.9%float 60%float).
  split; [split; [reflexivity|vm_compute; reflexivity]|].
  refine (calculateSaleDetails_nothing_financed IEEE.Math_pow_exact _ _ _);
    [reflexivity|vm_compute; reflexivity].
Defined.

(** X12.  [calculateFinanceAmount] and [calculateTotalInterest] never
    return a negative amount: in exact arithmetic they are [>= 0], equal to
    the difference when it is [>= 0] and to [0] otherwise; in binary64 they
    are [>= 0] whenever they are a number at all. *)
Theorem clamped_amounts_never_negative :
  (forall x y : Q,
      (0 <= calculateFinanceAmount (H := Exact.rational) x y)%Q
      /\ (0 <= calculateTotalInterest (H := Exact.rational) x y)%Q
      /\ ((y <= x)%Q ->
          calculateFinanceAmount (H := Exact.rational) x y = (x - y)%Q
          /\ calculateTotalInterest (H := Exact.rational) x y = (x - y)%Q)
      /\ ((x <= y)%Q ->
          (calculateFinanceAmount (H := Exact.rational) x y == 0)%Q
          /\ (calculateTotalInterest (H := Exact.rational) x y == 0)%Q))
  /\ (forall (pow : float -> float -> float) (x y : float),
      (PrimFloat.is_nan (calculateFinanceAmount (H := IEEE.binary64 pow) x y) = false ->
       PrimFloat.leb 0 (calculateFinanceAmount (H := IEEE.binary64 pow) x y) = true)
      /\ (PrimFloat.is_nan (calculateTotalInterest (H := IEEE.binary64 pow) x y) = false ->
          PrimFloat.leb 0 (calculateTotalInterest (H := IEEE.binary64 pow) x y) = true)).
Proof.
  split.
  - intros x y.
    change (calculateTotalInterest (H := Exact.rational) x y)
      with (Exact.Math_max 0 (x - y)%Q).
    change (calculateFinanceAmount (H := Exact.rational) x y)
      with (Exact.Math_max 0 (x - y)%Q).
    split; [apply ExactFacts.Math_max_0_floor_exact|].
    split; [apply ExactFacts.Math_max_0_floor_exact|].
    split; intros Hxy.
    + split; apply CentsFacts.Math_max_0_nonneg; lra.
    + unfold Exact.Math_max.
      destruct (Qle_bool 0 (x - y)) eqn:E; [|split; reflexivity].
      apply Qle_bool_iff in E. split; lra.
  - intros pow x y. split; apply IEEEFacts.Math_max_0_floor_binary64.
Qed.

Lemma clamped_amounts_never_negative_witness :
  ((2000 <= 10000)%Q
   /\ calculateFinanceAmount (H := Exact.rational) 10000%Q 2000%Q = (10000 - 2000)%Q)
  /\ (PrimFloat.is_nan (calculateFinanceAmount (H := IEEE.js) 10000%float 2000%float)
      = false
      /\ PrimFloat.leb 0 (calculateFinanceAmount (H := IEEE.js) 10000%float 2000%float)
         = true).
Proof.
  split; split.
  - discriminate.
  - refine (proj1 (proj1 (proj2 (proj2
              (proj1 clamped_amounts_never_negative 10000%Q 2000%Q))) _)).
    discriminate.
  - vm_compute. reflexivity.
  - refine (proj1 (proj2 clamped_amounts_never_negative
                     IEEE.Math_pow_exact 10000%float 2000%float) _).
    vm_compute. reflexivity.
Defined.

(** ** A principal that is not a number *)

(** X14.  In binary64, whatever [Math.pow] is: [calculateMonthlyPayment]
    does not validate its principal, and a NaN principal with a term that
    is not [<= 0] gives NaN, at rate 0 and at any other rate. *)
Theorem calculateMonthlyPayment_NaN_principal
    (pow : float -> float -> float) (annualRate months : float) :
  PrimFloat.leb months 0 = false ->
  calculateMonthlyPayment (H := IEEE.binary64 pow) nan annualRate months = nan.
Proof.
  intros Hmonths. unfold calculateMonthlyPayment.
  change (@nleb (IEEE.binary64 pow)) with PrimFloat.leb.
  change (@of_Z (IEEE.binary64 pow) 0) with 0%float.
  change (PrimFloat.leb nan 0) with false.
  rewrite Hmonths. cbn [orb].
  destruct (neqb (Number := IEEE.binary64 pow) annualRate 0%float).
  - apply FloatFacts.nan_div.
  - cbv zeta. apply FloatFacts.nan_mul.
Qed.

Lemma calculateMonthlyPayment_NaN_principal_witness :
  PrimFloat.leb 60 0 = false
  /\ calculateMonthlyPayment (H := IEEE.js) nan 9.9%float 60%float = nan.
Proof.
  split; [reflexivity|].
  apply (calculateMonthlyPayment_NaN_principal IEEE.Math_pow_exact).
  reflexivity.
Defined.

(** ** The payoff amount *)

(** X17.  When every payment has status ['paid'], nothing is left to pay
    off: in exact arithmetic [calculatePayoffAmount] is [0]; in binary64,
    whatever [Math.pow] is, it is [0] unless it is NaN (which it is when
    the total principal is not finite). *)
Theorem payoff_after_last_payment :
  (forall payments : list (Payment.t Q),
      Forall (fun p => Payment.status p = "paid"%string) payments ->
      (calculatePayoffAmount (H := Exact.rational) payments == 0)%Q)
  /\ (forall (pow : float -> float -> float) (payments : list (Payment.t float)),
      Forall (fun p => Payment.status p = "paid"%string) payments ->
      PrimFloat.is_nan (calculatePayoffAmount (H := IEEE.binary64 pow) payments) = false ->
      calculatePayoffAmount (H := IEEE.binary64 pow) payments = 0%float).
Proof.
  split; [exact PayoffFacts.payoff_all_paid|].
  intros pow payments Hpaid. unfold calculatePayoffAmount.
  rewrite (all_paid_filter (H := IEEE.binary64 pow)
             payments Hpaid).
  change (@nsub (IEEE.binary64 pow)) with PrimFloat.sub.
  destruct (FloatFacts.sub_diag_binary64
              (sum_principal (H := IEEE.binary64 pow) payments)) as [-> | ->].
  - intros _. vm_compute. reflexivity.
  - intros Hnan. vm_compute in Hnan. discriminate.
Qed.

Lemma payoff_after_last_payment_witness :
  (Forall (fun p : Payment.t Q => Payment.status p = "paid"%string)
     [Payment.Build_t "paid" 100%Q (Some 100%Q)]
   /\ (calculatePayoffAmount (H := Exact.rational)
         [Payment.Build_t "paid" 100%Q (Some 100%Q)] == 0)%Q)
  /\ (Forall (fun p : Payment.t float => Payment.status p = "paid"%string)
        [Payment.Build_t "paid" 100%float (Some 100%float)]
      /\ PrimFloat.is_nan
           (calculatePayoffAmount (H := IEEE.js)
              [Payment.Build_t "paid" 100%float (Some 100%float)]) = false
      /\ calculatePayoffAmount (H := IEEE.js)
           [Payment.Build_t "paid" 100%float (Some 100%float)] = 0%float).
Proof.
  split; split.
  - repeat constructor.
  - refine (proj1 payoff_after_last_payment _ _). repeat constructor.
  - repeat constructor.
  - split; [vm_compute; reflexivity|].
    refine (proj2 payoff_after_last_payment IEEE.Math_pow_exact _ _ _);
      [repeat constructor|vm_compute; reflexivity].
Defined.

(** ** The pages *)

(** X18.  For every arithmetic: the payment rows [handleSubmit] creates from
    a schedule are all [pending] with no [paid_amount]; over them
    [calculatePayoffAmount] is [round2] of the stored principal of the whole
    schedule (minus the literal 0), [totalPaid] is 0, the buyer page's total
    is the down payment added to 0, and [nextDue] is the first row. *)
Theorem fresh_sale_payments :
  forall (N : Number) (format : Date -> string) (sale_id : string)
         (schedule : list (AmortizationEntry num)),
    let payments := map stored (newPayments format sale_id schedule) in
    List.length payments = List.length schedule
    /\ Forall (fun p => Payment.status p = "pending"%string
                        /\ Payment.paid_amount p = None) payments
    /\ calculatePayoffAmount payments = round2 (schedule_principal schedule - $0)
    /\ totalPaid payments = $0
    /\ (forall status down,
           totalPaidWithDownPayment
             {| Sale.status := status; Sale.down_payment := down;
                Sale.payments := Some payments |} = $0 + down)
    /\ nextDue payments = hd_error payments.
Proof.
  intros N format sale_id schedule payments.
  pose proof (stored_newPayments_status format sale_id schedule) as Hpending.
  fold payments in Hpending.
  pose proof (pending_not_paid payments Hpending) as Hnone.
  split; [|split; [|split; [|split; [|split]]]].
  - unfold payments, newPayments. now rewrite !length_map.
  - exact Hpending.
  - unfold calculatePayoffAmount. rewrite Hnone.
    unfold payments. rewrite stored_newPayments_principal. reflexivity.
  - unfold totalPaid. rewrite Hnone. reflexivity.
  - intros status down. unfold totalPaidWithDownPayment, payments_or_empty.
    cbn [Sale.payments Sale.down_payment]. rewrite Hnone. reflexivity.
  - unfold nextDue. destruct Hpending as [|p ps [Hp _] _]; [reflexivity|].
    cbn [find hd_error]. rewrite Hp. reflexivity.
Qed.

(** X20.  In binary64, whatever [Math.pow] is: when every payment of
    every active sale is paid, [totalOwed] of the buyer dashboard is [0]
    unless it is NaN (which it is when a total principal is not finite);
    sales that are not active and sales without payments add nothing. *)
Theorem totalOwed_zero_when_all_paid
    (pow : float -> float -> float) (sales : list (Sale.t float)) :
  Forall (fun s : Sale.t float =>
            Sale.status s = "active"%string ->
            Forall (fun p => Payment.status p = "paid"%string)
              (payments_or_empty (H := IEEE.binary64 pow) s)) sales ->
  PrimFloat.is_nan (totalOwed (H := IEEE.binary64 pow) sales) = false ->
  totalOwed (H := IEEE.binary64 pow) sales = 0%float.
Proof.
  intros Hall. unfold totalOwed.
  change (@nadd (IEEE.binary64 pow)) with PrimFloat.add.
  change (@of_Z (IEEE.binary64 pow) 0) with 0%float.
  cbv zeta.
  destruct (FloatFacts.fold_0_or_nan
              (fun s => calculatePayoffAmount (H := IEEE.binary64 pow)
                          (payments_or_empty (H := IEEE.binary64 pow) s))
              (filter (fun s => String.eqb (Sale.status s) "active") sales))
    with (acc := 0%float) as [E | E].
  - apply Forall_forall. intros s Hin. apply filter_In in Hin.
    destruct Hin as [Hin Hactive]. apply String.eqb_eq in Hactive.
    apply FloatFacts.payoff_all_paid_0_or_nan.
    exact (proj1 (Forall_forall _ _) Hall s Hin Hactive).
  - left. reflexivity.
  - intros _. exact E.
  - intros Hnan.
    assert (Hn : PrimFloat.is_nan nan = false) by (rewrite <- E; exact Hnan).
    discriminate Hn.
Qed.

Lemma totalOwed_zero_when_all_paid_witness :
  (Forall (fun s : Sale.t float =>
             Sale.status s = "active"%string ->
             Forall (fun p => Payment.status p = "paid"%string)
               (payments_or_empty (H := IEEE.js) s))
     [Sale.Build_t "active" 2000%float
        (Some [Payment.Build_t "paid" 100%float (Some 100%float)]);
      Sale.Build_t "cancelled" 0%float None]
   /\ PrimFloat.is_nan
        (totalOwed (H := IEEE.js)
           [Sale.Build_t "active" 2000%float
              (Some [Payment.Build_t "paid" 100%float (Some 100%float)]);
            Sale.Build_t "cancelled" 0%float None]) = false)
  /\ totalOwed (H := IEEE.js)
       [Sale.Build_t "active" 2000%float
          (Some [Payment.Build_t "paid" 100%float (Some 100%float)]);
        Sale.Build_t "cancelled" 0%float None] = 0%float.
Proof.
  assert (Hall :
    Forall (fun s : Sale.t float =>
              Sale.status s = "active"%string ->
              Forall (fun p => Payment.status p = "paid"%string)
                (payments_or_empty (H := IEEE.js) s))
      [Sale.Build_t "active" 2000%float
         (Some [Payment.Build_t "paid" 100%float (Some 100%float)]);
       Sale.Build_t "cancelled" 0%float None]).
  { constructor; [intros _; repeat constructor|].
    constructor; [intros Hactive; discriminate Hactive|constructor]. }
  split; [split; [exact Hall|vm_compute; reflexivity]|].
  refine (totalOwed_zero_when_all_paid IEEE.Math_pow_exact _ Hall _).
  vm_compute. reflexivity.
Defined.
